(** * fetch_build_snapshot.py: the snapshot builder of the 41st dashboard

    A shallow embedding of [src/fetch_build_snapshot.py].  The script reads
    six relations of a SQLite file through the [sqlite3] module, assembles
    one record per user identifier, and replaces the destination JSON file.

    - Part 1 models the Python values [sqlite3] hands back and the builtins
      the script applies to them ([int], [str], [==], [sorted], [set],
      [dict]).
    - Part 2 embeds [int_or_0] and [build_snapshot].
    - Part 3 embeds the file-system side: [download_to_tmp],
      [open_sqlite_ro], [atomic_write_json] and [main].
    - Part 4 defines the vocabulary of the properties.
    - Part 5 proves the properties C1 to C10 of the specification.
    - Part 6 proves further properties of the code, X1 to X19. *)

From stdpp Require Import gmap strings.
From Stdlib Require Import ZArith List String Ascii Bool Lia.
From Stdlib Require Import Permutation Sorted DecimalString SpecFloat.
Import ListNotations.
Local Open Scope Z_scope.

(* ===================================================================== *)
(** * Part 1: Python values and builtins *)
(* ===================================================================== *)

(** What a [sqlite3] cursor yields in a column: NULL is [None], INTEGER an
    [int], REAL a [float], TEXT a [str] (decoded from UTF-8; kept here as its
    UTF-8 bytes, whose bytewise order is the code-point order Python compares
    by) and BLOB a [bytes]. *)
Inductive value : Type :=
| PNone
| PInt (z : Z)
| PFloat (f : spec_float)
| PStr (s : string)
| PBytes (b : string).

(** Builtins of the interpreter that the script calls and that are not
    worth re-implementing: the shortest round-trip [repr] of a float, and
    the literal parser behind [int(s)] for text and bytes ([None] where
    CPython raises [ValueError]). *)
Class Builtins : Type := {
  float_repr : spec_float -> string;
  int_of_str : string -> option Z;
  int_of_bytes : string -> option Z
}.

(** [int(x)] on a float truncates toward zero; infinities raise
    [OverflowError] and NaN raises [ValueError]. *)
Definition float_trunc (f : spec_float) : option Z :=
  match f with
  | S754_zero _ => Some 0
  | S754_infinity _ => None
  | S754_nan => None
  | S754_finite s m e =>
      let a := Z.shiftl (Z.pos m) e in
      Some (if s then - a else a)
  end.

(** [int(x)]: [None] stands for the exception ([TypeError] on [None],
    [ValueError] or [OverflowError] otherwise). *)
Definition py_int `{Builtins} (x : value) : option Z :=
  match x with
  | PNone => None
  | PInt z => Some z
  | PFloat f => float_trunc f
  | PStr s => int_of_str s
  | PBytes b => int_of_bytes b
  end.

(** [repr] of a [bytes] object, as [PyBytes_Repr] prints it. *)
Definition dquote : ascii := "034"%char.
Definition squote : ascii := "039"%char.
Definition backslash : ascii := "092"%char.

Definition hex_digit (n : N) : ascii :=
  ascii_of_N (if (n <? 10)%N then 48 + n else 87 + n)%N.

Fixpoint string_mem (c : ascii) (s : string) : bool :=
  match s with
  | EmptyString => false
  | String d s' => Ascii.eqb c d || string_mem c s'
  end.

Definition bytes_repr_char (quote c : ascii) : string :=
  let n := N_of_ascii c in
  if Ascii.eqb c quote || Ascii.eqb c backslash then String backslash (String c EmptyString)
  else if (n =? 9)%N then String backslash "t"
  else if (n =? 10)%N then String backslash "n"
  else if (n =? 13)%N then String backslash "r"
  else if (n <? 32)%N || (127 <=? n)%N then
    String backslash (String "x" (String (hex_digit (n / 16)) (String (hex_digit (n mod 16)) EmptyString)))
  else String c EmptyString.

Fixpoint bytes_repr_body (quote : ascii) (b : string) : string :=
  match b with
  | EmptyString => String quote EmptyString
  | String c b' => (bytes_repr_char quote c ++ bytes_repr_body quote b')%string
  end.

Definition bytes_repr (b : string) : string :=
  let quote := if string_mem squote b && negb (string_mem dquote b) then dquote else squote in
  String "b" (String quote (bytes_repr_body quote b)).

(** [str(x)]. *)
Definition py_str `{Builtins} (x : value) : string :=
  match x with
  | PNone => "None"
  | PInt z => NilZero.string_of_int (Z.to_int z)
  | PFloat f => float_repr f
  | PStr s => s
  | PBytes b => bytes_repr b
  end.

(** ** Equality as sets and dicts see it

    [set] and [dict] identify keys that are [==] (and hash alike): an [int]
    and a [float] of the same numeric value are one key, [0.0 == -0.0], and
    values of different kinds are distinct.  [py_key] maps a value to a
    canonical representative of its class; a finite float [m * 2^e] is
    reduced until [m] is odd or [e] is non-negative. *)
Inductive pykey : Type :=
| KNone
| KNum (z : Z)
| KDyadic (neg : bool) (m : positive) (e : Z)
| KInf (neg : bool)
| KNan
| KStr (s : string)
| KBytes (b : string).

Fixpoint reduce_dyadic (m : positive) (e : Z) : positive * Z :=
  match m with
  | xO m' => if e <? 0 then reduce_dyadic m' (e + 1) else (m, e)
  | _ => (m, e)
  end.

Definition float_key (f : spec_float) : pykey :=
  match f with
  | S754_zero _ => KNum 0
  | S754_infinity s => KInf s
  | S754_nan => KNan
  | S754_finite s m e =>
      let '(m', e') := reduce_dyadic m e in
      if e' <? 0 then KDyadic s m' e'
      else let a := Z.pos m' * 2 ^ e' in KNum (if s then - a else a)
  end.

Definition py_key (x : value) : pykey :=
  match x with
  | PNone => KNone
  | PInt z => KNum z
  | PFloat f => float_key f
  | PStr s => KStr s
  | PBytes b => KBytes b
  end.

Definition pykey_eq_dec (a b : pykey) : {a = b} + {a <> b}.
Proof.
  decide equality;
    first [apply Z.eq_dec | apply Pos.eq_dec | apply Bool.bool_dec | apply string_dec].
Defined.

Definition py_eqb (a b : value) : bool :=
  if pykey_eq_dec (py_key a) (py_key b) then true else false.

(** ** Sets

    A [set] is kept as the list of its members in first-insertion order, one
    per equality class.  Iterating a [set] follows the hash table, not the
    insertion order, and the hashes of [str] and [bytes] change from one
    process to the next: iteration is a permutation [set_iter] chosen by the
    run. *)
Definition pyset : Type := list value.

Definition set_contains (x : value) (s : pyset) : bool := existsb (py_eqb x) s.

Definition set_add (x : value) (s : pyset) : pyset :=
  if set_contains x s then s else s ++ [x].

Record hash_order : Type := {
  set_iter : list value -> list value;
  set_iter_perm : forall l, Permutation (set_iter l) l
}.

(** ** Dicts

    A [dict] is an association list in insertion order; assigning to a key
    that is present keeps the key object and its position. *)
Definition dict (V : Type) : Type := list (value * V).

Fixpoint dict_get {V} (k : value) (d : dict V) : option V :=
  match d with
  | [] => None
  | (k', v) :: d' => if py_eqb k k' then Some v else dict_get k d'
  end.

Fixpoint dict_set {V} (k : value) (v : V) (d : dict V) : dict V :=
  match d with
  | [] => [(k, v)]
  | (k', v') :: d' => if py_eqb k k' then (k', v) :: d' else (k', v') :: dict_set k v d'
  end.

(** [d.get(k, dflt)] *)
Definition dict_get_or {V} (k : value) (d : dict V) (dflt : V) : V :=
  match dict_get k d with Some v => v | None => dflt end.

(** [d.setdefault(k, []).append(x)] *)
Definition dict_setdefault_append {V} (k : value) (x : V) (d : dict (list V)) : dict (list V) :=
  dict_set k (dict_get_or k d [] ++ [x]) d.

(** ** [sorted(l, key=...)]

    Python's sort is stable and compares keys with [<] only; a stable
    insertion sort returns the same list. *)
Section Sorted.
Context {A : Type} (key : A -> string).

Fixpoint insert_by (x : A) (l : list A) : list A :=
  match l with
  | [] => [x]
  | y :: l' =>
      if String.ltb (key y) (key x) then y :: insert_by x l' else x :: y :: l'
  end.

Definition sorted (l : list A) : list A := fold_right insert_by [] l.

End Sorted.

(** ** Cursors and [try ... except Exception: pass]

    A query yields some rows and then either ends or raises (the table or a
    column is missing, a TEXT cell is not UTF-8, the file is corrupt ...).
    A failing [execute] is a result with no rows that raises. *)
Record result (A : Type) : Type := { rows : list A; raises : bool }.
Arguments rows {A} _.
Arguments raises {A} _.

Inductive completion (S : Type) : Type :=
| Normal (s : S)
| Raised (s : S).
Arguments Normal {S} _.
Arguments Raised {S} _.

(** [for row in cur.execute(q): body]: the state reached, and how the loop
    was left. *)
Definition for_in {A S} (q : result A) (body : A -> S -> S) (s : S) : completion S :=
  let s' := fold_left (fun acc row => body row acc) (rows q) s in
  if raises q then Raised s' else Normal s'.

(** [try: ... except Exception: pass] around a loop that updates [s] in
    place. *)
Definition try_pass {S} (c : completion S) : S :=
  match c with Normal s => s | Raised s => s end.

(* ===================================================================== *)
(** * Part 2: [int_or_0] and [build_snapshot] *)
(* ===================================================================== *)

(** [def int_or_0(x): try: return int(x) / except Exception: return 0] *)
Definition int_or_0 `{Builtins} (x : value) : Z :=
  match py_int x with
  | Some n => n
  | None => 0
  end.

(** The tables named in the queries. *)
Inductive user_table : Type :=
| tbl_register_status
| tbl_user_credits
| tbl_user_daily
| tbl_user_purchases.

Inductive role_table : Type :=
| tbl_non_stacking_roles
| tbl_role_credits.

(** The source file as the cursor shows it: one result per query text.
    - [select_user_id t]: [SELECT user_id FROM t]
    - [select_credits]: [SELECT user_id, current_credits, max_credits,
      removed_credits FROM user_credits]
    - [select_daily]: [SELECT user_id, last_claim, streak FROM user_daily]
    - [select_purchases]: [SELECT user_id, item_name FROM user_purchases
      ORDER BY id]
    - [select_roles t]: [SELECT role_name, credit_amount FROM t] *)
Record database : Type := {
  select_user_id : user_table -> result value;
  select_credits : result (value * value * value * value);
  select_daily : result (value * value * value);
  select_purchases : result (value * value);
  select_roles : role_table -> result (value * value)
}.

(** The JSON objects of the snapshot, fields in the order the script
    inserts them. *)
Record credits_rec : Type := {
  current_credits : Z;
  max_credits : Z;
  removed_credits : Z
}.

Record daily_rec : Type := {
  last_claim : value;
  streak : Z
}.

Record user : Type := {
  user_id : string;
  registered : bool;
  credits : credits_rec;
  daily : daily_rec;
  purchases : list value;
  net_credits : Z
}.

Record role_entry : Type := {
  role_name : value;
  credit_amount : Z
}.

Record roles_rec : Type := {
  non_stacking_roles : list role_entry;
  role_credits : list role_entry
}.

Record snapshot : Type := {
  generated_at : Z;
  data : list user;
  roles : roles_rec
}.

Definition zero_credits : credits_rec :=
  {| current_credits := 0; max_credits := 0; removed_credits := 0 |}.

Definition no_daily : daily_rec := {| last_claim := PNone; streak := 0 |}.

Definition user_tables : list user_table :=
  [tbl_register_status; tbl_user_credits; tbl_user_daily; tbl_user_purchases].

(** [{uid: v for uid in user_ids}] *)
Definition dict_fromkeys {V} (keys : list value) (v : V) : dict V :=
  fold_left (fun d uid => dict_set uid v d) keys [].

(** [x or 0] on an [int]. *)
Definition or_0 (x : Z) : Z := if x =? 0 then 0 else x.

Section BuildSnapshot.
Context `{Builtins} (order : hash_order) (db : database).

(** Lines 58-64. *)
Definition collect_user_ids : pyset :=
  fold_left
    (fun user_ids t => try_pass (for_in (select_user_id db t) set_add user_ids))
    user_tables [].

(** Lines 67-78. *)
Definition read_credits (user_ids : pyset) : dict credits_rec :=
  try_pass
    (for_in (select_credits db)
       (fun '(uid, curr, maxc, rem) credits =>
          dict_set uid
            {| current_credits := int_or_0 curr;
               max_credits := int_or_0 maxc;
               removed_credits := int_or_0 rem |} credits)
       (dict_fromkeys (set_iter order user_ids) zero_credits)).

(** Lines 81-88. *)
Definition read_daily (user_ids : pyset) : dict daily_rec :=
  try_pass
    (for_in (select_daily db)
       (fun '(uid, last, strk) daily =>
          dict_set uid {| last_claim := last; streak := int_or_0 strk |} daily)
       (dict_fromkeys (set_iter order user_ids) no_daily)).

(** Lines 91-98. *)
Definition read_purchases : dict (list value) :=
  try_pass
    (for_in (select_purchases db)
       (fun '(uid, item) purchases => dict_setdefault_append uid item purchases)
       []).

(** Lines 101-105: the comprehension is assigned only when it completes. *)
Definition read_registered : pyset :=
  match for_in (select_user_id db tbl_register_status) set_add [] with
  | Normal s => s
  | Raised _ => []
  end.

(** Lines 110-117: one record. *)
Definition make_user (credits_d : dict credits_rec) (daily_d : dict daily_rec)
    (purchases_d : dict (list value)) (registered_s : pyset) (uid : value) : user :=
  let c := dict_get_or uid credits_d zero_credits in
  {| user_id := py_str uid;
     registered := set_contains uid registered_s;
     credits := c;
     daily := dict_get_or uid daily_d no_daily;
     purchases := dict_get_or uid purchases_d [];
     net_credits := or_0 (current_credits c) - or_0 (removed_credits c) |}.

(** Lines 121-128. *)
Definition read_roles (table : role_table) : list role_entry :=
  try_pass
    (for_in (select_roles db table)
       (fun '(name, amount) out =>
          out ++ [{| role_name := name; credit_amount := int_or_0 amount |}])
       []).

(** [build_snapshot(conn)]; [now] is [int(time.time())]. *)
Definition build_snapshot (now : Z) : snapshot :=
  let user_ids := collect_user_ids in
  let credits_d := read_credits user_ids in
  let daily_d := read_daily user_ids in
  let purchases_d := read_purchases in
  let registered_s := read_registered in
  let users :=
    map (make_user credits_d daily_d purchases_d registered_s)
        (sorted py_str (set_iter order user_ids)) in
  {| generated_at := now;
     data := users;
     roles := {| non_stacking_roles := read_roles tbl_non_stacking_roles;
                 role_credits := read_roles tbl_role_credits |} |}.

End BuildSnapshot.

(** ** [json.dump(obj, f, separators=(",", ":"), ensure_ascii=False)]

    The encoder writes the document chunk by chunk and raises [TypeError]
    at a [bytes] value and [ValueError] at an [int] too long to print:
    [inr text] is the complete document, [inl prefix] what had been written
    when the exception was raised. *)
Definition jresult : Type := (string + string)%type.

Definition jcat (a b : jresult) : jresult :=
  match a with
  | inl p => inl p
  | inr t =>
      match b with
      | inl p => inl (t ++ p)%string
      | inr u => inr (t ++ u)%string
      end
  end.

Definition json_escape_char (c : ascii) : string :=
  let n := N_of_ascii c in
  if Ascii.eqb c dquote || Ascii.eqb c backslash then String backslash (String c EmptyString)
  else if (n =? 8)%N then String backslash "b"
  else if (n =? 9)%N then String backslash "t"
  else if (n =? 10)%N then String backslash "n"
  else if (n =? 12)%N then String backslash "f"
  else if (n =? 13)%N then String backslash "r"
  else if (n <? 32)%N then
    String backslash (String "u" (String "0" (String "0"
      (String (hex_digit (n / 16)) (String (hex_digit (n mod 16)) EmptyString)))))
  else String c EmptyString.

Fixpoint json_escape (s : string) : string :=
  match s with
  | EmptyString => EmptyString
  | String c s' => (json_escape_char c ++ json_escape s')%string
  end.

Definition json_string (s : string) : string :=
  String dquote (json_escape s ++ String dquote EmptyString).

Definition json_int (z : Z) : string := NilZero.string_of_int (Z.to_int z).

(** CPython refuses to print an [int] of more than
    [sys.int_info.default_max_str_digits] = 4300 decimal digits, the sign
    not counted; the script does not change the limit. *)
Definition max_str_digits : Z := 4300.

Definition int_printable (z : Z) : bool := Z.abs z <? 10 ^ max_str_digits.

(** An [int] computed by the script ([int_or_0] of a cell, or a difference
    of two) as the value of a key. *)
Definition json_number (z : Z) : jresult :=
  if int_printable z then inr (json_int z) else inl EmptyString.

Definition json_bool (b : bool) : string := if b then "true" else "false".

(** A cell as it was read.  An INTEGER cell is a 64-bit integer and always
    prints. *)
Definition json_value `{Builtins} (v : value) : jresult :=
  match v with
  | PNone => inr "null"%string
  | PInt z => inr (json_int z)
  | PFloat S754_nan => inr "NaN"%string
  | PFloat (S754_infinity false) => inr "Infinity"%string
  | PFloat (S754_infinity true) => inr "-Infinity"%string
  | PFloat f => inr (float_repr f)
  | PStr s => inr (json_string s)
  | PBytes _ => inl EmptyString
  end.

Fixpoint json_items (items : list jresult) : jresult :=
  match items with
  | [] => inr EmptyString
  | [x] => x
  | x :: rest => jcat x (jcat (inr ","%string) (json_items rest))
  end.

Definition json_list (items : list jresult) : jresult :=
  jcat (inr "["%string) (jcat (json_items items) (inr "]"%string)).

Definition json_object (fields : list (string * jresult)) : jresult :=
  jcat (inr "{"%string)
    (jcat (json_items
             (map (fun '(k, v) => jcat (inr (json_string k ++ ":")%string) v) fields))
          (inr "}"%string)).

Definition json_credits (c : credits_rec) : jresult :=
  json_object
    [("current_credits"%string, json_number (current_credits c));
     ("max_credits"%string, json_number (max_credits c));
     ("removed_credits"%string, json_number (removed_credits c))].

Definition json_daily `{Builtins} (d : daily_rec) : jresult :=
  json_object
    [("last_claim"%string, json_value (last_claim d));
     ("streak"%string, json_number (streak d))].

Definition json_user `{Builtins} (u : user) : jresult :=
  json_object
    [("user_id"%string, inr (json_string (user_id u)));
     ("registered"%string, inr (json_bool (registered u)));
     ("credits"%string, json_credits (credits u));
     ("daily"%string, json_daily (daily u));
     ("purchases"%string, json_list (map json_value (purchases u)));
     ("net_credits"%string, json_number (net_credits u))].

Definition json_role `{Builtins} (r : role_entry) : jresult :=
  json_object
    [("role_name"%string, json_value (role_name r));
     ("credit_amount"%string, json_number (credit_amount r))].

Definition json_roles `{Builtins} (r : roles_rec) : jresult :=
  json_object
    [("non_stacking_roles"%string, json_list (map json_role (non_stacking_roles r)));
     ("role_credits"%string, json_list (map json_role (role_credits r)))].

(** [generated_at] is [int(time.time())], the integer part of a float: at
    most 309 digits, so it always prints. *)
Definition json_dumps `{Builtins} (s : snapshot) : jresult :=
  json_object
    [("generated_at"%string, inr (json_int (generated_at s)));
     ("data"%string, json_list (map json_user (data s)));
     ("roles"%string, json_roles (roles s))].

(** ** A runtime to evaluate examples with

    [sample_builtins] parses ASCII integer literals the way [int] does
    (surrounding white space, a sign, digits with single underscores between
    them) and prints a float by its exact decimal expansion, which is
    CPython's [repr] for the floats the examples use (integers and halves).
    The theorems quantify over every [Builtins]. *)
Definition is_space (c : ascii) : bool :=
  let n := N_of_ascii c in (n =? 32)%N || ((9 <=? n)%N && (n <=? 13)%N).

Definition is_digit (c : ascii) : bool :=
  let n := N_of_ascii c in (48 <=? n)%N && (n <=? 57)%N.

Definition digit_val (c : ascii) : Z := Z.of_N (N_of_ascii c) - 48.

Fixpoint lstrip (l : list ascii) : list ascii :=
  match l with
  | c :: l' => if is_space c then lstrip l' else l
  | [] => []
  end.

Fixpoint parse_digits (acc : Z) (after_digit : bool) (l : list ascii) : option Z :=
  match l with
  | [] => if after_digit then Some acc else None
  | c :: l' =>
      if is_digit c then parse_digits (10 * acc + digit_val c) true l'
      else if Ascii.eqb c "_" && after_digit then parse_digits acc false l'
      else None
  end.

Definition parse_int_literal (s : string) : option Z :=
  match rev (lstrip (rev (lstrip (list_ascii_of_string s)))) with
  | c :: l =>
      if Ascii.eqb c "-" then option_map Z.opp (parse_digits 0 false l)
      else if Ascii.eqb c "+" then parse_digits 0 false l
      else parse_digits 0 false (c :: l)
  | [] => None
  end.

Definition exact_float_repr (f : spec_float) : string :=
  match f with
  | S754_zero s => if s then "-0.0" else "0.0"
  | S754_infinity s => if s then "-inf" else "inf"
  | S754_nan => "nan"
  | S754_finite s m e =>
      let '(m', e') := reduce_dyadic m e in
      let sign := if s then "-"%string else EmptyString in
      if e' <? 0 then
        let k := Z.to_nat (- e') in
        let scaled := Z.pos m' * 5 ^ (- e') in
        let int_part := scaled / 10 ^ (- e') in
        let frac := NilZero.string_of_int (Z.to_int (scaled mod 10 ^ (- e'))) in
        let pad := string_of_list_ascii (repeat "0"%char (k - String.length frac)) in
        (sign ++ json_int int_part ++ "." ++ pad ++ frac)%string
      else (sign ++ json_int (Z.pos m' * 2 ^ e') ++ ".0")%string
  end.

Definition sample_builtins : Builtins :=
  {| float_repr := exact_float_repr;
     int_of_str := parse_int_literal;
     int_of_bytes := parse_int_literal |}.

(** Iteration orders to evaluate examples with: insertion order and its
    reverse. *)
Definition insertion_order : hash_order :=
  {| set_iter := fun l => l; set_iter_perm := fun l => Permutation_refl l |}.

Definition reverse_order : hash_order :=
  {| set_iter := @rev value;
     set_iter_perm := fun l => Permutation_sym (Permutation_rev l) |}.

(* ===================================================================== *)
(** * Part 3: files, the download and [main] *)
(* ===================================================================== *)

(** A regular file: its bytes and permission bits.  Directories are not
    part of the model: [files] below maps the paths of regular files. *)
Record file : Type := { contents : string; mode : Z }.

(** The process and the file system it acts on.  [seen] keeps every earlier
    file-system state, newest first: what another process could have read
    between two system calls. *)
Record machine : Type := {
  files : gmap string file;
  seen : list (gmap string file);
  stdout : list string;
  stderr : list string
}.

(** How a call ends: it returns, [sys.exit(rc)] is unwinding the stack, or
    another exception is. *)
Inductive outcome (A : Type) : Type :=
| Return (a : A)
| SysExit (rc : Z)
| Uncaught.
Arguments Return {A} _.
Arguments SysExit {A} _.
Arguments Uncaught {A}.

Definition io (A : Type) : Type := machine -> outcome A * machine.

Definition ret {A} (a : A) : io A := fun m => (Return a, m).

Definition raise {A} : io A := fun m => (Uncaught, m).

Definition bind {A B} (c : io A) (k : A -> io B) : io B :=
  fun m =>
    match c m with
    | (Return a, m') => k a m'
    | (SysExit rc, m') => (SysExit rc, m')
    | (Uncaught, m') => (Uncaught, m')
    end.

Notation "x <- c ;; k" := (bind c (fun x => k))
  (at level 100, c at next level, right associativity).
Notation "c ;;; k" := (bind c (fun _ => k))
  (at level 100, right associativity).

(** One system call that changes the file system. *)
Definition set_files (f : gmap string file) : io unit :=
  fun m =>
    (Return tt,
     {| files := f; seen := files m :: seen m;
        stdout := stdout m; stderr := stderr m |}).

Definition get_files : io (gmap string file) := fun m => (Return (files m), m).

(** [info], [warn] and [die] (lines 17-19). *)
Definition info (msg : string) : io unit :=
  fun m =>
    (Return tt,
     {| files := files m; seen := seen m;
        stdout := stdout m ++ [("[INFO] " ++ msg)%string]; stderr := stderr m |}).

Definition die {A} (msg : string) : io A :=
  fun m =>
    (SysExit 1,
     {| files := files m; seen := seen m;
        stdout := stdout m; stderr := stderr m ++ [("[ERROR] " ++ msg)%string] |}).

(** What the world outside the process does during one run. *)
Inductive fetch : Type :=
| HTTPError (code : Z) (reason : string)
| FetchFailed (why : string)
| Opened.

Inductive connect_result : Type :=
| Connected (db : database)
| OperationalError
| ConnectFailed.

Record world : Type := {
  (** [urlopen(url, timeout=60)] *)
  w_urlopen : fetch;
  (** the name [mkstemp(suffix=".db")] settles on; [None]: it raises *)
  w_db_tmp : option string;
  (** [r.read()]: the body, or [inl why] when the transfer breaks *)
  w_body : string + string;
  (** [f.write(body)] and the close: [None] all stored, [Some n]: an I/O
      error once [n] bytes are stored *)
  w_store : option nat;
  (** the text of the [OSError], when [mkstemp] or the write raises one *)
  w_oserror : string;
  (** [sqlite3.connect(uri, uri=True)] and [sqlite3.connect(path)] *)
  w_connect_uri : connect_result;
  w_connect_path : option database;
  (** what the SQLite library does to the files while the database is
      opened and read (write-ahead log and shared-memory files beside it,
      a journal rolled back, ...) *)
  w_sqlite_fs : gmap string file -> gmap string file;
  (** the clock and the hash seed *)
  w_now : Z;
  w_order : hash_order;
  (** [atomic_write_json] *)
  w_makedirs_ok : bool;
  w_out_tmp : option string;
  w_write : option nat;
  w_fsync_ok : bool;
  w_replace_ok : bool;
  w_chmod_ok : bool;
  (** [os.remove(tmp_db)] *)
  w_remove_ok : bool
}.

Definition prefix_of (n : nat) (s : string) : string := String.substring 0 n s.

(** [tempfile.mkstemp]: creates an empty file, owner-only, under a name not
    in use ([O_EXCL]). *)
Definition mkstemp (name : option string) : io string :=
  match name with
  | None => raise
  | Some tmp =>
      fs <- get_files ;;
      match fs !! tmp with
      | Some _ => raise
      | None =>
          set_files (<[tmp := {| contents := EmptyString; mode := 384 |}]> fs) ;;;
          ret tmp
      end
  end.

(** Bytes reaching an open file: its contents change, its mode does not. *)
Definition store (path : string) (text : string) : io unit :=
  fs <- get_files ;;
  set_files
    (<[path := {| contents := text;
                  mode := match fs !! path with Some f => mode f | None => 384 end |}]> fs).

(** [download_to_tmp(url)] (lines 21-35): every exception raised inside the
    [try] ends in [die]. *)
Definition download_to_tmp (w : world) (url : string) : io string :=
  info ("Downloading DB from: " ++ url) ;;;
  match w_urlopen w with
  | HTTPError code reason =>
      die ("HTTP error " ++ json_int code ++ " while fetching DB: " ++ reason)
  | FetchFailed why => die ("Failed to download DB: " ++ why)
  | Opened =>
      fun m =>
        match mkstemp (w_db_tmp w) m with
        | (Return tmp, m1) =>
            match w_body w with
            | inl why => die ("Failed to download DB: " ++ why) m1
            | inr body =>
                match w_store w with
                | Some n =>
                    (store tmp (prefix_of n body) ;;;
                     die ("Failed to download DB: " ++ w_oserror w)) m1
                | None =>
                    (store tmp body ;;;
                     info ("Downloaded to " ++ tmp) ;;;
                     ret tmp) m1
                end
            end
        | (_, m1) => die ("Failed to download DB: " ++ w_oserror w) m1
        end
  end.

(** [open_sqlite_ro(path)] (lines 37-46); [os.path.exists(None)] raises.
    The file operations of the SQLite library itself, from the connect to
    the end of the reads, are those of [w_sqlite_fs]. *)
Definition open_sqlite_ro (w : world) (path : option string) : io database :=
  match path with
  | None => raise
  | Some p =>
      fs <- get_files ;;
      match fs !! p with
      | None => die ("DB file not found: " ++ p)
      | Some _ =>
          set_files (w_sqlite_fs w fs) ;;;
          match w_connect_uri w with
          | Connected db => ret db
          | OperationalError =>
              match w_connect_path w with
              | Some db => ret db
              | None => raise
              end
          | ConnectFailed => raise
          end
      end
  end.

(** [os.path.dirname] of a POSIX path. *)
Fixpoint drop_to_slash (l : list ascii) : list ascii :=
  match l with
  | [] => []
  | c :: l' => if Ascii.eqb c "/" then l else drop_to_slash l'
  end.

Fixpoint drop_slashes (l : list ascii) : list ascii :=
  match l with
  | c :: l' => if Ascii.eqb c "/" then drop_slashes l' else l
  | [] => []
  end.

Definition dirname (p : string) : string :=
  let head := drop_to_slash (rev (list_ascii_of_string p)) in
  string_of_list_ascii
    (rev (match drop_slashes head with [] => head | stripped => stripped end)).

(** [atomic_write_json(obj, out_path)] (lines 142-150).  [os.makedirs]
    raises on the empty path; the directories it creates are not regular
    files and leave [files] as it is.  The name of the temporary file is the
    one the run gives ([mkstemp] places it in the directory of [out_path]);
    the encoder and the writes may fail with part of the text in the
    temporary file; [os.replace] moves the temporary file over [out_path]
    in one step or changes nothing. *)
Definition atomic_write_json `{Builtins} (w : world) (obj : snapshot) (out_path : string)
  : io unit :=
  (if String.eqb (dirname out_path) EmptyString || negb (w_makedirs_ok w)
   then raise else ret tt) ;;;
  tmp <- mkstemp (w_out_tmp w) ;;
  match json_dumps obj with
  | inl written => store tmp written ;;; raise
  | inr text =>
      match w_write w with
      | Some n => store tmp (prefix_of n text) ;;; raise
      | None =>
          store tmp text ;;;
          (if w_fsync_ok w then ret tt else raise) ;;;
          (if w_replace_ok w then
             fs <- get_files ;;
             match fs !! tmp with
             | Some f => set_files (<[out_path := f]> (delete tmp fs))
             | None => raise
             end
           else raise) ;;;
          (if w_chmod_ok w then
             fs <- get_files ;;
             match fs !! out_path with
             | Some f =>
                 set_files (<[out_path := {| contents := contents f; mode := 420 |}]> fs)
             | None => raise
             end
           else raise)
      end
  end.

(** The command line after [argparse]: [--out] is required. *)
Record args : Type := {
  arg_db : option string;
  arg_db_url : option string;
  arg_out : string
}.

(** Truth value of an optional string: [None] and the empty string are
    false. *)
Definition truthy (o : option string) : bool :=
  match o with
  | Some (String _ _) => true
  | _ => false
  end.

Definition nat_str (n : nat) : string := NilZero.string_of_uint (Nat.to_uint n).

(** Lines 165-168: the source to read, as [(db_path, tmp_db)]. *)
Definition acquire (a : args) (w : world) : io (option string * option string) :=
  if truthy (arg_db_url a) then
    tmp <- download_to_tmp w (match arg_db_url a with Some u => u | None => EmptyString end) ;;
    ret (Some tmp, Some tmp)
  else ret (arg_db a, None).

(** Lines 169-173. *)
Definition build_and_write `{Builtins} (a : args) (w : world) (db_path : option string)
  : io unit :=
  conn <- open_sqlite_ro w db_path ;;
  let snapshot := build_snapshot (w_order w) conn (w_now w) in
  atomic_write_json w snapshot (arg_out a) ;;;
  info ("Wrote " ++ arg_out a ++ ": users=" ++ nat_str (List.length (data snapshot))
        ++ ", roles="
        ++ nat_str (List.length (non_stacking_roles (roles snapshot))
                    + List.length (role_credits (roles snapshot)))).

(** Lines 175-177: the [finally] block. *)
Definition cleanup (w : world) (tmp_db : option string) : io unit :=
  if truthy tmp_db then
    match tmp_db with
    | Some tmp =>
        fs <- get_files ;;
        match fs !! tmp with
        | Some _ => if w_remove_ok w then set_files (delete tmp fs) else ret tt
        | None => ret tt
        end
    | None => ret tt
    end
  else ret tt.

(** [main()] (lines 152-177).  [tmp_db] is bound only once
    [download_to_tmp] has returned; the [finally] block runs however the
    [try] block is left, and the way it was left then resumes. *)
Definition main `{Builtins} (a : args) (w : world) : io unit :=
  if negb (truthy (arg_db a)) && negb (truthy (arg_db_url a)) then
    die "Provide either --db or --db-url"
  else
    fun m =>
      let '(r1, m1) := acquire a w m in
      let tmp_db := match r1 with Return (_, t) => t | _ => None end in
      let '(r, m2) :=
        match r1 with
        | Return (db_path, _) => build_and_write a w db_path m1
        | SysExit rc => (SysExit rc, m1)
        | Uncaught => (Uncaught, m1)
        end in
      let '(_, m3) := cleanup w tmp_db m2 in
      (r, m3).

(** The exit status of the process. *)
Definition exit_code {A} (r : outcome A) : Z :=
  match r with
  | Return _ => 0
  | SysExit rc => rc
  | Uncaught => 1
  end.

(* ===================================================================== *)
(** * Part 4: the vocabulary of the properties *)
(* ===================================================================== *)

(** ** Orders, sets and rows *)

(** [a <= b] on [str]. *)
Definition str_le (a b : string) : Prop := String.leb a b = true.

Section SortedOrder.
Context {A : Type} (key : A -> string).

(** The order [sorted(l, key=key)] sorts by. *)
Definition key_le (x y : A) : Prop := str_le (key x) (key y).

End SortedOrder.

(** [for x in l: s.add(x)] *)
Definition add_all (l : list value) (s : pyset) : pyset :=
  fold_left (fun acc x => set_add x acc) l s.

(** The last row of [rs] whose key is [k]. *)
Definition last_row {R} (key : R -> value) (k : value) (rs : list R) : option R :=
  find (fun r => py_eqb k (key r)) (rev rs).

(** The items of the rows of [rs] whose key is [k], in row order. *)
Definition items_of {V} (k : value) (rs : list (value * V)) : list V :=
  map snd (filter (fun r => py_eqb k (fst r)) rs).

(** ** What each field of a user's record is, in terms of the rows

    [make_user_rows] in Part 5 shows that the dictionaries of
    [build_snapshot] compute exactly that. *)
Section RowsOfUser.
Context `{Builtins} (order : hash_order) (db : database).

(** Every identifier the four [SELECT user_id] loops were handed, in
    order. *)
Definition seen_user_ids : list value :=
  List.concat (map (fun t => rows (select_user_id db t)) user_tables).

Definition credits_key (r : value * value * value * value) : value :=
  let '(uid, _, _, _) := r in uid.

Definition credits_val (r : value * value * value * value) : credits_rec :=
  let '(_, curr, maxc, rem) := r in
  {| current_credits := int_or_0 curr;
     max_credits := int_or_0 maxc;
     removed_credits := int_or_0 rem |}.

Definition daily_key (r : value * value * value) : value :=
  let '(uid, _, _) := r in uid.

Definition daily_val (r : value * value * value) : daily_rec :=
  let '(_, last, strk) := r in {| last_claim := last; streak := int_or_0 strk |}.

(** Credits: the last [user_credits] row read for the identifier, zeros
    when there is none. *)
Definition credits_of (uid : value) : credits_rec :=
  match last_row credits_key uid (rows (select_credits db)) with
  | Some r => credits_val r
  | None => zero_credits
  end.

(** Daily: the last [user_daily] row read for the identifier. *)
Definition daily_of (uid : value) : daily_rec :=
  match last_row daily_key uid (rows (select_daily db)) with
  | Some r => daily_val r
  | None => no_daily
  end.

(** Purchases: one item per [user_purchases] row of the identifier, in the
    order the rows were read. *)
Definition purchases_of (uid : value) : list value :=
  items_of uid (rows (select_purchases db)).

(** Registered: the identifier is among the [register_status] rows, and the
    read of that relation completed. *)
Definition registered_of (uid : value) : bool :=
  negb (raises (select_user_id db tbl_register_status))
  && existsb (py_eqb uid) (rows (select_user_id db tbl_register_status)).

Definition user_of (uid : value) : user :=
  {| user_id := py_str uid;
     registered := registered_of uid;
     credits := credits_of uid;
     daily := daily_of uid;
     purchases := purchases_of uid;
     net_credits := current_credits (credits_of uid) - removed_credits (credits_of uid) |}.

End RowsOfUser.

(** ** Sources used in the examples *)

(** A read that ends after the rows [rs]. *)
Definition complete {A} (rs : list A) : result A := {| rows := rs; raises := false |}.

(** A query on a table that does not exist. *)
Definition missing {A} : result A := {| rows := []; raises := true |}.

(** A read that breaks after the rows [rs]. *)
Definition broken_after {A} (rs : list A) : result A := {| rows := rs; raises := true |}.

(** [user_credits] keys its rows by INTEGER, [user_purchases] by TEXT; the
    other tables do not exist. *)
Definition db_mixed_ids : database :=
  {| select_user_id := fun t =>
       match t with
       | tbl_user_credits => complete [PInt 1]
       | tbl_user_purchases => complete [PStr "1"]
       | _ => missing
       end;
     select_credits := complete [(PInt 1, PInt 100, PInt 100, PInt 30)];
     select_daily := missing;
     select_purchases := complete [(PStr "1", PStr "sword")];
     select_roles := fun _ => missing |}.

(** [user_credits] holds two users; the row of the second has a cell that
    cannot be decoded, so the four-column read breaks after the first
    row. *)
Definition db_broken_credits : database :=
  {| select_user_id := fun t =>
       match t with
       | tbl_user_credits => complete [PInt 1; PInt 2]
       | _ => missing
       end;
     select_credits := broken_after [(PInt 1, PInt 5, PInt 9, PInt 0)];
     select_daily := missing;
     select_purchases := missing;
     select_roles := fun _ => missing |}.

(** The first example of the specification, with a second, older row for
    user 42 in [user_credits] and [user_daily]. *)
Definition db_user_42 : database :=
  {| select_user_id := fun t =>
       match t with
       | tbl_register_status => complete [PStr "42"]
       | tbl_user_credits => complete [PStr "42"; PStr "42"]
       | tbl_user_daily => complete [PStr "42"; PStr "42"]
       | tbl_user_purchases => complete [PStr "42"; PStr "7"; PStr "42"]
       end;
     select_credits :=
       complete [(PStr "42", PInt 1, PInt 1, PInt 1);
                 (PStr "42", PInt 100, PInt 0, PInt 30)];
     select_daily :=
       complete [(PStr "42", PInt 1700000000, PInt 4);
                 (PStr "42", PInt 1700086400, PInt 5)];
     select_purchases :=
       complete [(PStr "42", PStr "sword"); (PStr "7", PStr "bow");
                 (PStr "42", PStr "shield")];
     select_roles := fun _ => complete [] |}.

(** No two identifiers that differ as keys print alike. *)
Definition str_injective_on `{Builtins} (l : list value) : Prop :=
  forall a b, In a l -> In b l -> py_str a = py_str b -> py_key a = py_key b.


(** ** Reads that break (C4) *)

(** The same read, had it ended where it broke. *)
Definition ended {A} (q : result A) : result A := {| rows := rows q; raises := false |}.

(** The source in which every read that broke ended instead at that point;
    [SELECT user_id FROM register_status] is left as it is. *)
Definition read_to_error (db : database) : database :=
  {| select_user_id := fun t =>
       match t with
       | tbl_register_status => select_user_id db t
       | _ => ended (select_user_id db t)
       end;
     select_credits := ended (select_credits db);
     select_daily := ended (select_daily db);
     select_purchases := ended (select_purchases db);
     select_roles := fun t => ended (select_roles db t) |}.

(** The second example of the specification: a user known to
    [user_purchases] only, the other tables missing. *)
Definition db_purchases_only : database :=
  {| select_user_id := fun t =>
       match t with
       | tbl_user_purchases => complete [PInt 9; PInt 9]
       | _ => missing
       end;
     select_credits := missing;
     select_daily := missing;
     select_purchases := complete [(PInt 9, PStr "sword"); (PInt 9, PStr "shield")];
     select_roles := fun _ => missing |}.

(** ** Integers (C5) *)

(** Following the specification's words: the value is a valid integer, i.e. an
    INTEGER, a REAL without fractional part, or text or bytes that spell an
    integer. *)
Definition valid_integer `{Builtins} (x : value) : bool :=
  match x with
  | PNone => false
  | PInt _ => true
  | PFloat f => match float_key f with KNum _ => true | _ => false end
  | PStr s => match int_of_str s with Some _ => true | None => false end
  | PBytes b => match int_of_bytes b with Some _ => true | None => false end
  end.

(** The float 3.5, that is 7 * 2^-1. *)
Definition three_and_half : spec_float := S754_finite false 7 (-1).

(** ** Two runs (C7) *)

(** The snapshot with its [generated_at] field replaced. *)
Definition at_time (t : Z) (s : snapshot) : snapshot :=
  {| generated_at := t; data := data s; roles := roles s |}.

(** ** The destination during the write (C3) *)

(** The steps up to and including [os.replace] all succeed. *)
Definition replace_succeeds `{Builtins} (w : world) (obj : snapshot) (out_path : string)
    (m : machine) : bool :=
  negb (String.eqb (dirname out_path) EmptyString)
  && w_makedirs_ok w
  && match w_out_tmp w with
     | Some tmp => match files m !! tmp with None => true | Some _ => false end
     | None => false
     end
  && match json_dumps obj with inr _ => true | inl _ => false end
  && match w_write w with None => true | Some _ => false end
  && w_fsync_ok w
  && w_replace_ok w.






(** ** Runs used in the examples *)

(** A run to evaluate examples with: what [urlopen] does, what [r.read()]
    returns and whether [os.fsync] succeeds are left open; everything else
    goes well. *)
Definition sample_world (opened : fetch) (body : string + string) (fsync_ok : bool)
  : world :=
  {| w_urlopen := opened;
     w_db_tmp := Some "/tmp/tmpq1w2e3r4.db"%string;
     w_body := body;
     w_store := None;
     w_oserror := "[Errno 28] No space left on device";
     w_connect_uri := Connected db_user_42;
     w_connect_path := None;
     w_sqlite_fs := fun fs => fs;
     w_now := 1700000000;
     w_order := insertion_order;
     w_makedirs_ok := true;
     w_out_tmp := Some "/srv/data/tmpa1b2c3d4.json"%string;
     w_write := None;
     w_fsync_ok := fsync_ok;
     w_replace_ok := true;
     w_chmod_ok := true;
     w_remove_ok := true |}.

(** A file system with an earlier snapshot and a local database. *)
Definition sample_machine : machine :=
  {| files :=
       <["/srv/data/snapshot.json"%string := {| contents := "{}"; mode := 420 |}]>
         (<["/srv/credits.db"%string := {| contents := "SQLite format 3"; mode := 420 |}]> ∅);
     seen := [];
     stdout := [];
     stderr := [] |}.


(** The transfer breaks after [mkstemp] has created the file: [r.read()]
    raises, or the body cannot be stored in full. *)
Definition download_breaks (w : world) : Prop :=
  match w_body w with
  | inl _ => True
  | inr _ => w_store w <> None
  end.

(** [--db-url URL --out PATH] *)
Definition url_args : args :=
  {| arg_db := None;
     arg_db_url := Some "https://example.org/credits.db"%string;
     arg_out := "/srv/data/snapshot.json" |}.

(** [--db PATH --db-url URL --out PATH] *)
Definition both_args : args :=
  {| arg_db := Some "/srv/credits.db"%string;
     arg_db_url := Some "https://example.org/credits.db"%string;
     arg_out := "/srv/data/snapshot.json" |}.

(** ** Vocabulary of the further properties *)

(** The entry [read_roles] appends for one row. *)
Definition role_of_row `{Builtins} (r : value * value) : role_entry :=
  {| role_name := fst r; credit_amount := int_or_0 (snd r) |}.

(** The [last_claim] cell of a [user_daily] row. *)
Definition daily_last (r : value * value * value) : value :=
  let '(_, last, _) := r in last.

(** The value is a [bytes] object. *)
Definition is_bytes (v : value) : bool :=
  match v with PBytes _ => true | _ => false end.

(** The places of a snapshot that hold a cell as it was read: [last_claim],
    the items of [purchases] and [role_name]. *)
Definition user_has_bytes (u : user) : bool :=
  is_bytes (last_claim (daily u)) || existsb is_bytes (purchases u).

Definition has_bytes (s : snapshot) : bool :=
  existsb user_has_bytes (data s)
  || existsb (fun r => is_bytes (role_name r)) (non_stacking_roles (roles s))
  || existsb (fun r => is_bytes (role_name r)) (role_credits (roles s)).

(** The amounts of a snapshot that are too long to print. *)
Definition user_has_long_int (u : user) : bool :=
  negb (int_printable (current_credits (credits u))
        && int_printable (max_credits (credits u))
        && int_printable (removed_credits (credits u))
        && int_printable (streak (daily u))
        && int_printable (net_credits u)).

Definition role_has_long_int (r : role_entry) : bool :=
  negb (int_printable (credit_amount r)).

Definition has_long_int (s : snapshot) : bool :=
  existsb user_has_long_int (data s)
  || existsb role_has_long_int (non_stacking_roles (roles s))
  || existsb role_has_long_int (role_credits (roles s)).

(** An INTEGER of SQLite: a signed 64-bit integer. *)
Definition int64 (z : Z) : bool := (- 2 ^ 63 <=? z) && (z <? 2 ^ 63).

(** An amount cell that holds NULL or an INTEGER. *)
Definition integer_or_null (v : value) : bool :=
  match v with
  | PNone => true
  | PInt z => int64 z
  | _ => false
  end.

(** The three amounts of a [user_credits] row are such cells. *)
Definition amounts_are_integers (r : value * value * value * value) : bool :=
  let '(_, curr, maxc, rem) := r in
  integer_or_null curr && integer_or_null maxc && integer_or_null rem.

(** The [streak] cell of a [user_daily] row. *)
Definition daily_streak (r : value * value * value) : value :=
  let '(_, _, strk) := r in strk.

(** The encoder ran to the end. *)
Definition encodes (j : jresult) : bool :=
  match j with inr _ => true | inl _ => false end.

(** The document of a source without users and roles. *)
Definition empty_document (now : Z) : string :=
  ("{" ++ json_string "generated_at" ++ ":" ++ json_int now ++ ","
   ++ json_string "data" ++ ":[],"
   ++ json_string "roles" ++ ":{"
   ++ json_string "non_stacking_roles" ++ ":[],"
   ++ json_string "role_credits" ++ ":[]}}")%string.

(** A file that is not a database: every read raises at once. *)
Definition db_unreadable : database :=
  {| select_user_id := fun _ => missing;
     select_credits := missing;
     select_daily := missing;
     select_purchases := missing;
     select_roles := fun _ => missing |}.

(** The connection [open_sqlite_ro] returns when the file exists. *)
Definition connected_db (w : world) : option database :=
  match w_connect_uri w with
  | Connected db => Some db
  | OperationalError => w_connect_path w
  | ConnectFailed => None
  end.

(** The destination holds, world-readable, the document of the snapshot of
    the connected source. *)
Definition published `{Builtins} (w : world) (out_path : string)
    (fs : gmap string file) : Prop :=
  exists conn text,
    connected_db w = Some conn
    /\ json_dumps (build_snapshot (w_order w) conn (w_now w)) = inr text
    /\ fs !! out_path = Some {| contents := text; mode := 420 |}.

(** The last line of a successful run. *)
Definition summary_line (out_path : string) (conn : database) : string :=
  ("[INFO] "
   ++ ("Wrote " ++ out_path ++ ": users="
       ++ nat_str (List.length (collect_user_ids conn))
       ++ ", roles="
       ++ nat_str (List.length (rows (select_roles conn tbl_non_stacking_roles))
                   + List.length (rows (select_roles conn tbl_role_credits)))))%string.

(** The machine [m] after more lines were printed, its files untouched. *)
Definition logged (m : machine) (out err : list string) : machine :=
  {| files := files m; seen := seen m;
     stdout := stdout m ++ out; stderr := stderr m ++ err |}.

(** The run [w], except that [os.chmod] fails. *)
Definition chmod_failing (w : world) : world :=
  {| w_urlopen := w_urlopen w;
     w_db_tmp := w_db_tmp w;
     w_body := w_body w;
     w_store := w_store w;
     w_oserror := w_oserror w;
     w_connect_uri := w_connect_uri w;
     w_connect_path := w_connect_path w;
     w_sqlite_fs := w_sqlite_fs w;
     w_now := w_now w;
     w_order := w_order w;
     w_makedirs_ok := w_makedirs_ok w;
     w_out_tmp := w_out_tmp w;
     w_write := w_write w;
     w_fsync_ok := w_fsync_ok w;
     w_replace_ok := w_replace_ok w;
     w_chmod_ok := false;
     w_remove_ok := w_remove_ok w |}.

(** [--out PATH] alone. *)
Definition no_source_args : args :=
  {| arg_db := None; arg_db_url := Some EmptyString; arg_out := "/srv/data/snapshot.json" |}.

(** [--db PATH --out PATH] *)
Definition local_args (path : string) : args :=
  {| arg_db := Some path; arg_db_url := None; arg_out := "/srv/data/snapshot.json" |}.

Ltac run_ended :=
  simpl; try discriminate;
  try (match goal with
       | |- context [cleanup ?w ?t ?m] => destruct (cleanup w t m)
       end; simpl; discriminate).

(* ===================================================================== *)
(** * Part 5: properties *)
(* ===================================================================== *)

(** ** The order on strings *)

Lemma ascii_compare_refl (c : ascii) : Ascii.compare c c = Eq.
Proof. unfold Ascii.compare. apply N.compare_refl. Qed.

Lemma ascii_compare_lt_trans (a b c : ascii) :
  Ascii.compare a b = Lt -> Ascii.compare b c = Lt -> Ascii.compare a c = Lt.
Proof.
  unfold Ascii.compare. rewrite !N.compare_lt_iff. apply N.lt_trans.
Qed.

Lemma str_compare_lt_trans (a b c : string) :
  String.compare a b = Lt -> String.compare b c = Lt -> String.compare a c = Lt.
Proof.
  revert b c. induction a as [|x a IH]; intros [|y b] [|z c]; simpl;
    try discriminate; try reflexivity.
  destruct (Ascii.compare x y) eqn:Hxy; try discriminate.
  - apply Ascii.compare_eq_iff in Hxy. subst y.
    destruct (Ascii.compare x z); try discriminate; try reflexivity.
    apply IH.
  - intros _. destruct (Ascii.compare y z) eqn:Hyz; try discriminate.
    + apply Ascii.compare_eq_iff in Hyz. subst z. now rewrite Hxy.
    + intros _. now rewrite (ascii_compare_lt_trans x y z).
Qed.

Lemma str_compare_refl (a : string) : String.compare a a = Eq.
Proof.
  induction a as [|x a IH]; simpl; [reflexivity|].
  now rewrite ascii_compare_refl.
Qed.

Lemma str_le_refl (a : string) : str_le a a.
Proof. unfold str_le, String.leb. now rewrite str_compare_refl. Qed.

Lemma str_le_trans (a b c : string) : str_le a b -> str_le b c -> str_le a c.
Proof.
  unfold str_le, String.leb. intros Hab Hbc.
  destruct (String.compare a b) eqn:E1; try discriminate.
  - apply String.compare_eq_iff in E1. now subst b.
  - destruct (String.compare b c) eqn:E2; try discriminate.
    + apply String.compare_eq_iff in E2. subst c. now rewrite E1.
    + now rewrite (str_compare_lt_trans a b c).
Qed.

Lemma str_ltb_false_le (a b : string) : String.ltb a b = false -> str_le b a.
Proof.
  unfold str_le, String.ltb, String.leb. rewrite (String.compare_antisym b a).
  destruct (String.compare a b); simpl; congruence.
Qed.

Lemma str_ltb_true_le (a b : string) : String.ltb a b = true -> str_le a b.
Proof.
  unfold str_le, String.ltb, String.leb.
  destruct (String.compare a b); simpl; congruence.
Qed.

Lemma str_le_antisym (a b : string) : str_le a b -> str_le b a -> a = b.
Proof. apply String.leb_antisym. Qed.

(** ** [sorted] returns a sorted permutation, and the only one when the keys
    are pairwise distinct *)
Section SortedFacts.
Context {A : Type} (key : A -> string).

Lemma insert_by_perm (x : A) (l : list A) : Permutation (insert_by key x l) (x :: l).
Proof.
  induction l as [|y l IH]; simpl; [reflexivity|].
  destruct (String.ltb (key y) (key x)); [|reflexivity].
  rewrite IH. apply perm_swap.
Qed.

Lemma sorted_perm (l : list A) : Permutation (sorted key l) l.
Proof.
  induction l as [|x l IH]; simpl; [reflexivity|].
  rewrite insert_by_perm. now constructor.
Qed.

Lemma insert_by_sorted (x : A) (l : list A) :
  StronglySorted (key_le key) l -> StronglySorted (key_le key) (insert_by key x l).
Proof.
  induction 1 as [|y l Hs IH Hall]; simpl.
  - repeat constructor.
  - destruct (String.ltb (key y) (key x)) eqn:E.
    + constructor; [exact IH|].
      apply (Permutation_Forall (Permutation_sym (insert_by_perm x l))).
      constructor; [now apply str_ltb_true_le | exact Hall].
    + assert (Hxy : (key_le key) x y) by now apply str_ltb_false_le.
      constructor; [now constructor|].
      constructor; [exact Hxy|].
      eapply Forall_impl; [|exact Hall].
      intros z Hz. eapply str_le_trans; eassumption.
Qed.

Lemma sorted_sorted (l : list A) : StronglySorted (key_le key) (sorted key l).
Proof.
  induction l as [|x l IH]; simpl; [constructor | now apply insert_by_sorted].
Qed.

Lemma sorted_unique (l1 l2 : list A) :
  StronglySorted (key_le key) l1 -> StronglySorted (key_le key) l2 ->
  Permutation l1 l2 -> NoDup (map key l1) -> l1 = l2.
Proof.
  revert l2. induction l1 as [|a l1 IH]; intros l2 H1 H2 Hp Hnd.
  - apply Permutation_nil in Hp. now subst.
  - destruct l2 as [|b l2]; [now apply Permutation_sym, Permutation_nil_cons in Hp|].
    inversion H1 as [|? ? Hs1 Ha]; subst. inversion H2 as [|? ? Hs2 Hb]; subst.
    inversion Hnd as [|? ? Hnotin Hnd']; subst.
    assert (Hab : a = b).
    { assert (Hina : In a (b :: l2)) by (eapply Permutation_in; [exact Hp | now left]).
      assert (Hinb : In b (a :: l1))
        by (eapply Permutation_in; [apply Permutation_sym; exact Hp | now left]).
      destruct Hina as [->|Hina]; [reflexivity|].
      destruct Hinb as [->|Hinb]; [reflexivity|].
      exfalso. apply Hnotin.
      rewrite Forall_forall in Ha, Hb.
      rewrite (str_le_antisym (key a) (key b) (Ha _ Hinb) (Hb _ Hina)).
      now apply in_map. }
    subst b. f_equal. apply IH; auto.
    eapply Permutation_cons_inv; exact Hp.
Qed.

Lemma sorted_of_perm (l1 l2 : list A) :
  Permutation l1 l2 -> NoDup (map key l1) -> sorted key l1 = sorted key l2.
Proof.
  intros Hp Hnd. apply sorted_unique; try apply sorted_sorted.
  - rewrite !sorted_perm. exact Hp.
  - eapply Permutation_NoDup; [|exact Hnd].
    apply Permutation_map, Permutation_sym, sorted_perm.
Qed.

End SortedFacts.

(** ** Equality of keys *)

Lemma py_eqb_iff (a b : value) : py_eqb a b = true <-> py_key a = py_key b.
Proof.
  unfold py_eqb. destruct (pykey_eq_dec (py_key a) (py_key b)); split; congruence.
Qed.

Lemma py_eqb_refl (a : value) : py_eqb a a = true.
Proof. now apply py_eqb_iff. Qed.

Lemma py_eqb_sym (a b : value) : py_eqb a b = py_eqb b a.
Proof.
  destruct (py_eqb a b) eqn:E1, (py_eqb b a) eqn:E2; try reflexivity.
  - apply py_eqb_iff in E1. symmetry in E1. apply py_eqb_iff in E1. congruence.
  - apply py_eqb_iff in E2. symmetry in E2. apply py_eqb_iff in E2. congruence.
Qed.

Lemma py_eqb_key (a b : value) : py_key a = py_key b -> forall c, py_eqb a c = py_eqb b c.
Proof. intros E c. unfold py_eqb. now rewrite E. Qed.

(** ** Sets *)

Lemma set_contains_iff (x : value) (s : pyset) :
  set_contains x s = true <-> exists y, In y s /\ py_key y = py_key x.
Proof.
  unfold set_contains. rewrite existsb_exists. split.
  - intros (y & Hy & E). apply py_eqb_iff in E. eauto.
  - intros (y & Hy & E). exists y. split; [exact Hy|]. now apply py_eqb_iff.
Qed.

Lemma set_contains_false (x : value) (s : pyset) :
  set_contains x s = false -> ~ In (py_key x) (map py_key s).
Proof.
  intros E Hin. apply in_map_iff in Hin as (y & Hy & Hin).
  assert (set_contains x s = true) by (apply set_contains_iff; eauto).
  congruence.
Qed.

Lemma set_add_nodup (x : value) (s : pyset) :
  NoDup (map py_key s) -> NoDup (map py_key (set_add x s)).
Proof.
  intros Hnd. unfold set_add. destruct (set_contains x s) eqn:E; [exact Hnd|].
  rewrite map_app. simpl.
  apply (Permutation_NoDup (Permutation_cons_append (map py_key s) (py_key x))).
  constructor; [now apply set_contains_false | exact Hnd].
Qed.

Lemma set_add_in (x y : value) (s : pyset) :
  In y (set_add x s) -> In y s \/ y = x.
Proof.
  unfold set_add. destruct (set_contains x s); [now left|].
  rewrite in_app_iff. simpl. intuition.
Qed.

Lemma set_add_keeps (x y : value) (s : pyset) : In y s -> In y (set_add x s).
Proof.
  unfold set_add. destruct (set_contains x s); [easy|].
  rewrite in_app_iff. now left.
Qed.

Lemma set_add_contains (x : value) (s : pyset) : set_contains x (set_add x s) = true.
Proof.
  unfold set_add. destruct (set_contains x s) eqn:E; [exact E|].
  apply set_contains_iff. exists x. split; [|reflexivity].
  apply in_app_iff. right. now left.
Qed.

Lemma add_all_nodup (l : list value) (s : pyset) :
  NoDup (map py_key s) -> NoDup (map py_key (add_all l s)).
Proof.
  revert s. induction l as [|x l IH]; intros s Hnd; simpl; [exact Hnd|].
  now apply IH, set_add_nodup.
Qed.

Lemma add_all_in (l : list value) (s : pyset) (y : value) :
  In y (add_all l s) -> In y s \/ In y l.
Proof.
  revert s. induction l as [|x l IH]; intros s Hy; simpl in *; [now left|].
  apply IH in Hy as [Hy|Hy]; [|now right; right].
  apply set_add_in in Hy. intuition.
Qed.

Lemma add_all_keeps (l : list value) (s : pyset) (y : value) :
  In y s -> In y (add_all l s).
Proof.
  revert s. induction l as [|x l IH]; intros s Hy; simpl; [exact Hy|].
  now apply IH, set_add_keeps.
Qed.

Lemma add_all_contains (l : list value) (s : pyset) (x : value) :
  In x l -> set_contains x (add_all l s) = true.
Proof.
  revert s. induction l as [|a l IH]; intros s Hx; simpl in *; [easy|].
  destruct Hx as [->|Hx]; [|now apply IH].
  pose proof (set_add_contains x s) as Hc.
  apply set_contains_iff in Hc as (y & Hy & E).
  apply set_contains_iff. exists y. split; [|exact E].
  now apply add_all_keeps.
Qed.

Lemma add_all_app (l1 l2 : list value) (s : pyset) :
  add_all (l1 ++ l2) s = add_all l2 (add_all l1 s).
Proof. apply fold_left_app. Qed.

Lemma try_pass_for_in {A S} (q : result A) (body : A -> S -> S) (s : S) :
  try_pass (for_in q body s) = fold_left (fun acc row => body row acc) (rows q) s.
Proof. unfold for_in. now destruct (raises q). Qed.

(** ** Dicts *)

Lemma dict_get_set {V} (k k' : value) (v : V) (d : dict V) :
  dict_get k (dict_set k' v d) = if py_eqb k k' then Some v else dict_get k d.
Proof.
  induction d as [|[k0 v0] d IH]; simpl.
  - reflexivity.
  - destruct (py_eqb k' k0) eqn:E; simpl.
    + apply py_eqb_iff in E.
      rewrite <- (py_eqb_sym k0 k), <- (py_eqb_key _ _ E k), (py_eqb_sym k' k).
      now destruct (py_eqb k k').
    + rewrite IH. destruct (py_eqb k k0) eqn:E0; [|reflexivity].
      destruct (py_eqb k k') eqn:E1; [|reflexivity].
      apply py_eqb_iff in E0, E1.
      assert (py_eqb k' k0 = true) by (apply py_eqb_iff; congruence).
      congruence.
Qed.

Lemma dict_get_fromkeys {V} (keys : list value) (v : V) (k : value) :
  dict_get_or k (dict_fromkeys keys v) v = v.
Proof.
  unfold dict_fromkeys.
  assert (G : forall d, dict_get_or k d v = v ->
              dict_get_or k (fold_left (fun d uid => dict_set uid v d) keys d) v = v).
  { induction keys as [|a keys IH]; intros d Hd; simpl; [exact Hd|].
    apply IH. unfold dict_get_or in *. rewrite dict_get_set.
    now destruct (py_eqb k a). }
  now apply G.
Qed.

Lemma find_append {R} (f : R -> bool) (l1 l2 : list R) :
  find f (l1 ++ l2) = match find f l1 with Some x => Some x | None => find f l2 end.
Proof.
  induction l1 as [|x l1 IH]; simpl; [reflexivity|]. now destruct (f x).
Qed.

Lemma dict_get_rows {R V} (key : R -> value) (val : R -> V) (rs : list R)
    (d : dict V) (k : value) :
  dict_get k (fold_left (fun acc r => dict_set (key r) (val r) acc) rs d) =
  match last_row key k rs with
  | Some r => Some (val r)
  | None => dict_get k d
  end.
Proof.
  unfold last_row. revert d. induction rs as [|r rs IH]; intros d; simpl; [reflexivity|].
  rewrite IH, find_append.
  destruct (find (fun r0 => py_eqb k (key r0)) (rev rs)); [reflexivity|].
  simpl. rewrite dict_get_set. now destruct (py_eqb k (key r)).
Qed.

Lemma dict_get_appended {V} (rs : list (value * V)) (d : dict (list V)) (k : value) :
  dict_get_or k
    (fold_left (fun acc r => dict_setdefault_append (fst r) (snd r) acc) rs d) [] =
  dict_get_or k d [] ++ items_of k rs.
Proof.
  revert d. induction rs as [|[k' x] rs IH]; intros d; simpl.
  - unfold items_of. simpl. now rewrite app_nil_r.
  - rewrite IH. unfold items_of. simpl.
    unfold dict_setdefault_append at 1. unfold dict_get_or at 1.
    rewrite dict_get_set. destruct (py_eqb k k') eqn:E; simpl.
    + apply py_eqb_iff in E. unfold dict_get_or.
      assert (Hkk : dict_get k' d = dict_get k d).
      { clear -E. induction d as [|[k0 v0] d IHd]; simpl; [reflexivity|].
        rewrite (py_eqb_key _ _ E k0). now rewrite IHd. }
      rewrite Hkk. now rewrite <- app_assoc.
    + reflexivity.
Qed.

Lemma fold_left_ext {S R} (f g : S -> R -> S) (l : list R) (s : S) :
  (forall acc r, f acc r = g acc r) -> fold_left f l s = fold_left g l s.
Proof.
  intros E. revert s. induction l as [|r l IH]; intros s; simpl; [reflexivity|].
  now rewrite E, IH.
Qed.

Lemma set_contains_key (x y : value) (s : pyset) :
  py_key x = py_key y -> set_contains x s = set_contains y s.
Proof.
  intros E. unfold set_contains. induction s as [|a s IH]; simpl; [reflexivity|].
  now rewrite (py_eqb_key _ _ E a), IH.
Qed.

Lemma set_contains_add (x a : value) (s : pyset) :
  set_contains x (set_add a s) = set_contains x s || py_eqb x a.
Proof.
  unfold set_add. destruct (set_contains a s) eqn:E.
  - destruct (py_eqb x a) eqn:Exa; [|now rewrite orb_false_r].
    apply py_eqb_iff in Exa. rewrite (set_contains_key _ _ s Exa), E. reflexivity.
  - unfold set_contains. rewrite existsb_app. simpl. now rewrite orb_false_r.
Qed.

Lemma set_contains_add_all (x : value) (l : list value) (s : pyset) :
  set_contains x (add_all l s) = set_contains x s || existsb (py_eqb x) l.
Proof.
  revert s. induction l as [|a l IH]; intros s; simpl; [now rewrite orb_false_r|].
  now rewrite IH, set_contains_add, orb_assoc.
Qed.

(** ** What [build_snapshot] computes, relation by relation *)
Section SnapshotFacts.
Context `{Builtins} (order : hash_order) (db : database).

Lemma collect_user_ids_add_all : collect_user_ids db = add_all (seen_user_ids db) [].
Proof.
  unfold collect_user_ids, seen_user_ids, user_tables. simpl.
  rewrite !try_pass_for_in, app_nil_r, !add_all_app. reflexivity.
Qed.

Lemma read_credits_get (ids : pyset) (uid : value) :
  dict_get_or uid (read_credits order db ids) zero_credits = credits_of db uid.
Proof.
  unfold read_credits, credits_of. rewrite try_pass_for_in.
  rewrite (fold_left_ext _
             (fun acc r => dict_set (credits_key r) (credits_val r) acc))
    by (intros acc [[[u c] m] r]; reflexivity).
  unfold dict_get_or at 1. rewrite dict_get_rows.
  destruct (last_row credits_key uid (rows (select_credits db))); [reflexivity|].
  apply dict_get_fromkeys.
Qed.

Lemma read_daily_get (ids : pyset) (uid : value) :
  dict_get_or uid (read_daily order db ids) no_daily = daily_of db uid.
Proof.
  unfold read_daily, daily_of. rewrite try_pass_for_in.
  rewrite (fold_left_ext _
             (fun acc r => dict_set (daily_key r) (daily_val r) acc))
    by (intros acc [[u l] s]; reflexivity).
  unfold dict_get_or at 1. rewrite dict_get_rows.
  destruct (last_row daily_key uid (rows (select_daily db))); [reflexivity|].
  apply dict_get_fromkeys.
Qed.

Lemma read_purchases_get (uid : value) :
  dict_get_or uid (read_purchases db) [] = purchases_of db uid.
Proof.
  unfold read_purchases, purchases_of. rewrite try_pass_for_in.
  rewrite (fold_left_ext _
             (fun acc r => dict_setdefault_append (fst r) (snd r) acc))
    by (intros acc [u i]; reflexivity).
  now rewrite dict_get_appended.
Qed.

Lemma read_registered_contains (uid : value) :
  set_contains uid (read_registered db) = registered_of db uid.
Proof.
  unfold read_registered, registered_of, for_in.
  destruct (raises (select_user_id db tbl_register_status)); simpl; [reflexivity|].
  apply (set_contains_add_all uid _ []).
Qed.

Lemma or_0_id (x : Z) : or_0 x = x.
Proof. unfold or_0. destruct (Z.eqb_spec x 0); congruence. Qed.

Lemma make_user_rows (ids : pyset) (uid : value) :
  make_user (read_credits order db ids) (read_daily order db ids)
            (read_purchases db) (read_registered db) uid = user_of db uid.
Proof.
  unfold make_user, user_of.
  now rewrite read_credits_get, read_daily_get, read_purchases_get,
    read_registered_contains, !or_0_id.
Qed.

Lemma build_snapshot_data (now : Z) :
  data (build_snapshot order db now) =
  map (user_of db) (sorted py_str (set_iter order (collect_user_ids db))).
Proof.
  unfold build_snapshot. simpl. apply map_ext. intros uid. apply make_user_rows.
Qed.

End SnapshotFacts.

(** ** The first example of the specification *)

Example user_42_snapshot :
  data (build_snapshot (H := sample_builtins) insertion_order db_user_42 0) =
  [ {| user_id := "42"; registered := true;
       credits := {| current_credits := 100; max_credits := 0; removed_credits := 30 |};
       daily := {| last_claim := PInt 1700086400; streak := 5 |};
       purchases := [PStr "sword"; PStr "shield"];
       net_credits := 70 |};
    {| user_id := "7"; registered := false;
       credits := zero_credits; daily := no_daily;
       purchases := [PStr "bow"];
       net_credits := 0 |} ].
Proof. vm_compute. reflexivity. Qed.

(** ** C1: the identifiers of the output *)

Lemma NoDup_map_transfer {A B C} (f : A -> B) (g : A -> C) (l : list A) :
  (forall a b, In a l -> In b l -> g a = g b -> f a = f b) ->
  NoDup (map f l) -> NoDup (map g l).
Proof.
  induction l as [|x l IH]; intros Hinj Hnd; simpl; [constructor|].
  inversion Hnd as [|? ? Hnotin Hnd']; subst. constructor.
  - intros Hin. apply in_map_iff in Hin as (y & Hy & Hin).
    apply Hnotin. rewrite <- (Hinj y x); [now apply in_map | now right | now left | exact Hy].
  - apply IH; [|exact Hnd']. intros a b Ha Hb. apply Hinj; now right.
Qed.

Lemma collect_user_ids_nodup (db : database) : NoDup (map py_key (collect_user_ids db)).
Proof. rewrite collect_user_ids_add_all. apply add_all_nodup. constructor. Qed.

Lemma collect_user_ids_seen (db : database) (uid : value) :
  In uid (collect_user_ids db) -> In uid (seen_user_ids db).
Proof.
  rewrite collect_user_ids_add_all. intros Hin.
  apply add_all_in in Hin as [[]|Hin]. exact Hin.
Qed.

Lemma collect_user_ids_covers (db : database) (uid : value) :
  In uid (seen_user_ids db) ->
  exists uid', In uid' (collect_user_ids db) /\ py_key uid' = py_key uid.
Proof.
  intros Hin. apply set_contains_iff. rewrite collect_user_ids_add_all.
  now apply add_all_contains.
Qed.

Lemma collect_user_ids_str_nodup `{Builtins} (db : database) :
  str_injective_on (seen_user_ids db) -> NoDup (map py_str (collect_user_ids db)).
Proof.
  intros Hinj. apply (NoDup_map_transfer py_key); [|apply collect_user_ids_nodup].
  intros a b Ha Hb. apply Hinj; now apply collect_user_ids_seen.
Qed.

Lemma output_user_ids `{Builtins} (o : hash_order) (db : database) (now : Z) :
  map user_id (data (build_snapshot o db now)) =
  map py_str (sorted py_str (set_iter o (collect_user_ids db))).
Proof. rewrite build_snapshot_data, map_map. reflexivity. Qed.

Lemma output_user_ids_perm `{Builtins} (o : hash_order) (db : database) (now : Z) :
  Permutation (map user_id (data (build_snapshot o db now)))
              (map py_str (collect_user_ids db)).
Proof.
  rewrite output_user_ids. apply Permutation_map.
  rewrite sorted_perm. apply set_iter_perm.
Qed.

Lemma add_all_first (l : list value) (s : pyset) (y : value) :
  In y (add_all l s) ->
  In y s
  \/ exists before after,
       l = before ++ y :: after
       /\ ~ In (py_key y) (map py_key before)
       /\ ~ In (py_key y) (map py_key s).
Proof.
  revert s. induction l as [|a l IH]; intros s Hy; simpl in *; [now left|].
  apply IH in Hy as [Hy|(before & after & -> & Hb & Hs)].
  - unfold set_add in Hy. destruct (set_contains a s) eqn:E; [now left|].
    apply in_app_iff in Hy as [Hy|[<-|[]]]; [now left|].
    right. exists [], l. split; [reflexivity|]. split; [intros []|].
    now apply set_contains_false.
  - right. exists (a :: before), after. split; [reflexivity|].
    assert (Hns : ~ In (py_key y) (map py_key s)).
    { intros Hin. apply Hs. apply in_map_iff in Hin as (z & Ez & Hz).
      rewrite <- Ez. apply in_map. now apply set_add_keeps. }
    split; [|exact Hns].
    intros [Ea|Hin]; [|now apply Hb].
    apply Hs. rewrite <- Ea.
    pose proof (set_add_contains a s) as Hc.
    apply set_contains_iff in Hc as (z & Hz & Ez). rewrite <- Ez. now apply in_map.
Qed.

Lemma collect_user_ids_first (db : database) (uid : value) :
  In uid (collect_user_ids db) ->
  exists before after,
    seen_user_ids db = before ++ uid :: after
    /\ ~ In (py_key uid) (map py_key before).
Proof.
  rewrite collect_user_ids_add_all. intros Hin.
  apply add_all_first in Hin as [[]|(before & after & E & Hb & _)]. eauto.
Qed.

Lemma first_occurrence_unique (l b1 a1 b2 a2 : list value) (x y : value) :
  l = b1 ++ x :: a1 -> ~ In (py_key x) (map py_key b1) ->
  l = b2 ++ y :: a2 -> ~ In (py_key y) (map py_key b2) ->
  py_key x = py_key y -> x = y.
Proof.
  revert l b2. induction b1 as [|z b1 IH]; intros l [|z' b2] E1 H1 E2 H2 Ek;
    subst l; simpl in *.
  - now inversion E2.
  - inversion E2; subst. exfalso. apply H2. left. congruence.
  - inversion E2; subst. exfalso. apply H1. left. congruence.
  - inversion E2; subst. apply (IH (b1 ++ x :: a1) b2); auto.
Qed.

(** The list [ids] of the theorem below is determined up to its order: it
    is the set [user_ids] of the run. *)
Lemma distinct_ids_exact (db : database) (ids : list value) :
  NoDup (map py_key ids) ->
  (forall uid, In uid (seen_user_ids db) -> In (py_key uid) (map py_key ids)) ->
  (forall uid, In uid ids ->
     exists before after,
       seen_user_ids db = before ++ uid :: after
       /\ ~ In (py_key uid) (map py_key before)) ->
  Permutation ids (collect_user_ids db).
Proof.
  intros Hnd Hcov Hfirst.
  apply NoDup_Permutation.
  - now apply NoDup_map_inv in Hnd.
  - pose proof (collect_user_ids_nodup db) as Hc. now apply NoDup_map_inv in Hc.
  - intros x. split; intros Hx.
    + destruct (Hfirst x Hx) as (b1 & a1 & E1 & H1).
      assert (Hs : In x (seen_user_ids db)) by (rewrite E1; apply in_elt).
      apply collect_user_ids_covers in Hs as (c & Hc & Ek).
      destruct (collect_user_ids_first db c Hc) as (b2 & a2 & E2 & H2).
      now rewrite (first_occurrence_unique _ _ _ _ _ x c E1 H1 E2 H2 (eq_sym Ek)).
    + destruct (collect_user_ids_first db x Hx) as (b1 & a1 & E1 & H1).
      assert (Hs : In x (seen_user_ids db)) by (rewrite E1; apply in_elt).
      apply Hcov in Hs. apply in_map_iff in Hs as (c & Ek & Hc).
      destruct (Hfirst c Hc) as (b2 & a2 & E2 & H2).
      now rewrite (first_occurrence_unique _ _ _ _ _ x c E1 H1 E2 H2 (eq_sym Ek)).
Qed.

(** C1, as amended.  The [user_id] values of [data] are the string forms of
    the identifiers met in the four primary relations, exactly one entry
    for each identifier that is distinct as a set member: nothing else
    appears, every identifier met is represented by an identifier equal to
    it, and the entries are, in some order, the string forms of a list [ids]
    that holds one identifier of every class of equal identifiers met and
    no two of the same class, each being the first of its class that was
    met.  The [user_id] strings themselves are free of duplicates when no
    two distinct identifiers have the same string form. *)
Theorem user_ids_cover_sources `{Builtins} (o : hash_order) (db : database) (now : Z) :
  let out := map user_id (data (build_snapshot o db now)) in
  (forall s, In s out -> exists uid, In uid (seen_user_ids db) /\ py_str uid = s)
  /\ (forall uid, In uid (seen_user_ids db) ->
        exists uid', In uid' (seen_user_ids db) /\ py_eqb uid' uid = true
                     /\ In (py_str uid') out)
  /\ (exists ids,
        Permutation out (map py_str ids)
        /\ NoDup (map py_key ids)
        /\ (forall uid, In uid (seen_user_ids db) -> In (py_key uid) (map py_key ids))
        /\ (forall uid, In uid ids ->
              exists before after,
                seen_user_ids db = before ++ uid :: after
                /\ ~ In (py_key uid) (map py_key before)))
  /\ (str_injective_on (seen_user_ids db) -> NoDup out).
Proof.
  intros out. pose proof (output_user_ids_perm o db now) as Hp. fold out in Hp.
  repeat split.
  - intros s Hs. apply (Permutation_in _ Hp) in Hs.
    apply in_map_iff in Hs as (uid & E & Hin).
    exists uid. split; [now apply collect_user_ids_seen | exact E].
  - intros uid Hin. apply collect_user_ids_covers in Hin as (uid' & Hin' & E).
    exists uid'. split; [now apply collect_user_ids_seen|].
    split; [now apply py_eqb_iff|].
    apply (Permutation_in _ (Permutation_sym Hp)). now apply in_map.
  - exists (collect_user_ids db). split; [exact Hp|].
    split; [apply collect_user_ids_nodup|]. split.
    + intros uid Hin. apply collect_user_ids_covers in Hin as (uid' & Hin' & E).
      rewrite <- E. now apply in_map.
    + apply collect_user_ids_first.
  - intros Hinj. apply (Permutation_NoDup (Permutation_sym Hp)).
    now apply collect_user_ids_str_nodup.
Qed.

Lemma user_ids_cover_sources_witness :
  NoDup (map user_id
           (data (build_snapshot (H := sample_builtins) insertion_order db_user_42 0))).
Proof.
  apply (user_ids_cover_sources (H := sample_builtins) insertion_order db_user_42 0).
  intros a b Ha Hb. vm_compute in Ha, Hb.
  repeat match goal with
         | Hx : _ \/ _ |- _ => destruct Hx as [Hx|Hx]
         | Hx : False |- _ => destruct Hx
         end; subst; vm_compute; congruence.
Defined.

(** C1 as stated fails: identifier 1 (INTEGER) and identifier "1" (TEXT) are
    two members of [user_ids] and both print as "1". *)
Lemma user_ids_duplicated :
  map user_id
    (data (build_snapshot (H := sample_builtins) insertion_order db_mixed_ids 0))
  = ["1"; "1"]%string
  /\ ~ NoDup (map user_id
                (data (build_snapshot (H := sample_builtins) insertion_order db_mixed_ids 0))).
Proof.
  split; [vm_compute; reflexivity|].
  intros Hnd. vm_compute in Hnd. inversion Hnd as [|? ? Hnotin _]; subst.
  apply Hnotin. now left.
Qed.

(** ** C2: net credits *)

(** C2.  In every record of [data], [net_credits] is the difference of the
    record's own [current_credits] and [removed_credits]. *)
Theorem net_credits_recomputed `{Builtins} (o : hash_order) (db : database) (now : Z) :
  Forall (fun u => net_credits u = current_credits (credits u) - removed_credits (credits u))
         (data (build_snapshot o db now)).
Proof.
  rewrite build_snapshot_data. apply Forall_forall. intros u Hu.
  apply in_map_iff in Hu as (uid & <- & _). reflexivity.
Qed.

(** ** C9: the order of [data] *)

Lemma StronglySorted_map {A B} (f : A -> B) (R : B -> B -> Prop) (l : list A) :
  StronglySorted (fun x y => R (f x) (f y)) l -> StronglySorted R (map f l).
Proof.
  induction 1 as [|x l Hs IH Hall]; simpl; constructor; [exact IH|].
  apply Forall_map. exact Hall.
Qed.

(** C9.  [data] ascends by [user_id], compared as Python compares strings:
    every record's [user_id] is at most that of every later record. *)
Theorem data_sorted_by_user_id `{Builtins} (o : hash_order) (db : database) (now : Z) :
  StronglySorted (fun u v => String.leb (user_id u) (user_id v) = true)
                 (data (build_snapshot o db now)).
Proof.
  rewrite build_snapshot_data.
  apply (StronglySorted_map (user_of db) (fun u v => str_le (user_id u) (user_id v))).
  apply (sorted_sorted py_str).
Qed.

(** ** C10: several rows for one identifier *)





(** ** C4: relations that cannot be read *)

Lemma build_snapshot_read_to_error `{Builtins} (o : hash_order) (db : database) (now : Z) :
  build_snapshot o (read_to_error db) now = build_snapshot o db now.
Proof.
  unfold build_snapshot.
  assert (Eids : collect_user_ids (read_to_error db) = collect_user_ids db).
  { unfold collect_user_ids, user_tables. cbn [fold_left].
    rewrite !try_pass_for_in. reflexivity. }
  rewrite Eids.
  assert (Ec : read_credits o (read_to_error db) (collect_user_ids db)
               = read_credits o db (collect_user_ids db))
    by (unfold read_credits; rewrite !try_pass_for_in; reflexivity).
  assert (Ed : read_daily o (read_to_error db) (collect_user_ids db)
               = read_daily o db (collect_user_ids db))
    by (unfold read_daily; rewrite !try_pass_for_in; reflexivity).
  assert (Ep : read_purchases (read_to_error db) = read_purchases db)
    by (unfold read_purchases; rewrite !try_pass_for_in; reflexivity).
  assert (Er : forall t, read_roles (read_to_error db) t = read_roles db t)
    by (intros t; unfold read_roles; rewrite !try_pass_for_in; reflexivity).
  rewrite Ec, Ed, Ep, !Er. reflexivity.
Qed.

(** C4, as amended.  A relation that is absent, or whose read raises before
    it yields a row, counts as empty: the fields it feeds take their
    defaults in every record, and [registered] is false in every record as
    soon as the read of [register_status] raises at all.  A read that
    raises after some rows is treated as if the relation ended there: the
    snapshot is the one of the source cut at the errors. *)
Theorem unreadable_relation_defaults `{Builtins} (o : hash_order) (db : database) (now : Z) :
  let snap := build_snapshot o db now in
  (rows (select_credits db) = [] ->
     Forall (fun u => credits u = zero_credits /\ net_credits u = 0) (data snap))
  /\ (rows (select_daily db) = [] -> Forall (fun u => daily u = no_daily) (data snap))
  /\ (rows (select_purchases db) = [] -> Forall (fun u => purchases u = []) (data snap))
  /\ (rows (select_user_id db tbl_register_status) = []
      \/ raises (select_user_id db tbl_register_status) = true ->
      Forall (fun u => registered u = false) (data snap))
  /\ (rows (select_roles db tbl_non_stacking_roles) = [] ->
      non_stacking_roles (roles snap) = [])
  /\ (rows (select_roles db tbl_role_credits) = [] -> role_credits (roles snap) = [])
  /\ snap = build_snapshot o (read_to_error db) now.
Proof.
  intros snap. unfold snap. rewrite build_snapshot_data.
  assert (G : forall (P : user -> Prop), (forall uid, P (user_of db uid)) ->
              Forall P (map (user_of db) (sorted py_str (set_iter o (collect_user_ids db))))).
  { intros P HP. apply Forall_forall. intros u Hu.
    apply in_map_iff in Hu as (uid & <- & _). apply HP. }
  repeat split.
  - intros E. apply G. intros uid. simpl. unfold credits_of, last_row. rewrite E. now simpl.
  - intros E. apply G. intros uid. simpl. unfold daily_of, last_row. now rewrite E.
  - intros E. apply G. intros uid. simpl. unfold purchases_of. now rewrite E.
  - intros E. apply G. intros uid. simpl. unfold registered_of.
    destruct E as [E|E]; rewrite E; [apply andb_false_r | reflexivity].
  - intros E. simpl. unfold read_roles. rewrite try_pass_for_in, E. reflexivity.
  - intros E. simpl. unfold read_roles. rewrite try_pass_for_in, E. reflexivity.
  - symmetry. apply build_snapshot_read_to_error.
Qed.

Lemma unreadable_relation_defaults_witness :
  let snap := build_snapshot (H := sample_builtins) insertion_order db_purchases_only 0 in
  data snap <> []
  /\ Forall (fun u => credits u = zero_credits /\ net_credits u = 0) (data snap)
  /\ Forall (fun u => daily u = no_daily) (data snap)
  /\ Forall (fun u => registered u = false) (data snap)
  /\ non_stacking_roles (roles snap) = []
  /\ role_credits (roles snap) = [].
Proof.
  intros snap.
  destruct (unreadable_relation_defaults (H := sample_builtins)
              insertion_order db_purchases_only 0)
    as (Hc & Hd & _ & Hr & Hn & Hrc & _).
  split; [vm_compute; discriminate|].
  split; [apply Hc; reflexivity|].
  split; [apply Hd; reflexivity|].
  split; [apply Hr; left; reflexivity|].
  split; [apply Hn; reflexivity | apply Hrc; reflexivity].
Defined.

(** C4 as stated fails: the read of [user_credits] raises after one row, and
    the user of that row keeps the credits read. *)
Lemma broken_read_keeps_rows :
  raises (select_credits db_broken_credits) = true
  /\ map credits
       (data (build_snapshot (H := sample_builtins) insertion_order db_broken_credits 0))
     = [ {| current_credits := 5; max_credits := 9; removed_credits := 0 |};
         zero_credits ]
  /\ ~ Forall (fun u => credits u = zero_credits)
         (data (build_snapshot (H := sample_builtins) insertion_order db_broken_credits 0)).
Proof.
  split; [reflexivity|]. split; [vm_compute; reflexivity|].
  intros Hall. vm_compute in Hall. inversion Hall as [|? ? E _]. discriminate E.
Qed.

(** ** C5: [int_or_0] *)

(** C5 as stated fails: 3.5 is not an integer, and it is coerced to 3. *)
Lemma real_is_truncated :
  valid_integer (H := sample_builtins) (PFloat three_and_half) = false
  /\ int_or_0 (H := sample_builtins) (PFloat three_and_half) = 3
  /\ int_or_0 (H := sample_builtins) (PFloat three_and_half) <> 0.
Proof. repeat split. vm_compute. discriminate. Qed.

Lemma shiftl_is_quot (m : positive) (e : Z) :
  Z.shiftl (Z.pos m) e = Z.quot (Z.pos m * 2 ^ Z.max 0 e) (2 ^ Z.max 0 (- e)).
Proof.
  destruct (Z.le_gt_cases 0 e) as [He|He].
  - rewrite Z.shiftl_mul_pow2 by exact He.
    rewrite (Z.max_r 0 e) by exact He. rewrite (Z.max_l 0 (- e)) by lia.
    now rewrite Z.quot_1_r.
  - rewrite <- (Z.opp_involutive e) at 1. rewrite Z.shiftl_opp_r.
    rewrite Z.shiftr_div_pow2 by lia.
    rewrite (Z.max_l 0 e) by lia. rewrite (Z.max_r 0 (- e)) by lia.
    rewrite Z.mul_1_r. symmetry. apply Z.quot_div_nonneg; [lia|].
    apply Z.pow_pos_nonneg; lia.
Qed.

(** C5, as amended.  [int_or_0] returns an integer for every value a cell
    can hold: the integer itself; a finite real rounded toward zero (the
    quotient of [m * 2^e] taken toward zero); the integer that text or bytes
    spell; and 0 for NULL, for an infinite or NaN real, and for text or bytes
    that [int] rejects. *)
Theorem int_or_0_cases `{Builtins} (x : value) :
  int_or_0 x =
  match x with
  | PNone => 0
  | PInt z => z
  | PFloat (S754_finite s m e) =>
      Z.quot ((if s then - Z.pos m else Z.pos m) * 2 ^ Z.max 0 e) (2 ^ Z.max 0 (- e))
  | PFloat _ => 0
  | PStr s => match int_of_str s with Some z => z | None => 0 end
  | PBytes b => match int_of_bytes b with Some z => z | None => 0 end
  end.
Proof.
  destruct x as [|z|f|s|b]; try reflexivity.
  destruct f as [s|s| |s m e]; try reflexivity.
  unfold int_or_0. simpl. rewrite shiftl_is_quot.
  destruct s; [|reflexivity].
  now rewrite Z.mul_opp_l, Z.quot_opp_l by (apply Z.pow_nonzero; lia).
Qed.

(** ** C7: running twice *)

(** C7, as amended.  Two runs on one source differ in the clock and in the
    iteration order of [user_ids].  When no two distinct identifiers have
    the same string form, both runs assemble the same [data] and [roles],
    and the documents are the same text once [generated_at] is set
    aside. *)
Theorem rerun_same_document `{Builtins} (o1 o2 : hash_order) (db : database) (t1 t2 : Z) :
  str_injective_on (seen_user_ids db) ->
  data (build_snapshot o1 db t1) = data (build_snapshot o2 db t2)
  /\ roles (build_snapshot o1 db t1) = roles (build_snapshot o2 db t2)
  /\ at_time t1 (build_snapshot o2 db t2) = build_snapshot o1 db t1
  /\ json_dumps (at_time t1 (build_snapshot o2 db t2)) = json_dumps (build_snapshot o1 db t1).
Proof.
  intros Hinj.
  assert (Ed : data (build_snapshot o1 db t1) = data (build_snapshot o2 db t2)).
  { rewrite !build_snapshot_data. f_equal. apply sorted_of_perm.
    - rewrite !set_iter_perm. reflexivity.
    - apply (Permutation_NoDup (l := map py_str (collect_user_ids db))).
      + apply Permutation_map, Permutation_sym, set_iter_perm.
      + now apply collect_user_ids_str_nodup. }
  assert (Es : at_time t1 (build_snapshot o2 db t2) = build_snapshot o1 db t1).
  { unfold at_time. rewrite <- Ed. reflexivity. }
  repeat split; [exact Ed | exact Es | now rewrite Es].
Qed.

Lemma rerun_same_document_witness :
  json_dumps (H := sample_builtins)
    (at_time 1700000000
       (build_snapshot (H := sample_builtins) reverse_order db_user_42 1700000600))
  = json_dumps (H := sample_builtins)
      (build_snapshot (H := sample_builtins) insertion_order db_user_42 1700000000).
Proof.
  apply (rerun_same_document (H := sample_builtins)
           insertion_order reverse_order db_user_42 1700000000 1700000600).
  intros a b Ha Hb. vm_compute in Ha, Hb.
  repeat match goal with
         | Hx : _ \/ _ |- _ => destruct Hx as [Hx|Hx]
         | Hx : False |- _ => destruct Hx
         end; subst; vm_compute; congruence.
Defined.

(** C7 as stated fails: with identifiers 1 and "1" in the source, the two
    records with [user_id] "1" come out in the iteration order of the set,
    which is not the same in every run. *)
Lemma rerun_differs :
  data (build_snapshot (H := sample_builtins) insertion_order db_mixed_ids 0)
  <> data (build_snapshot (H := sample_builtins) reverse_order db_mixed_ids 0)
  /\ json_dumps (H := sample_builtins)
       (build_snapshot (H := sample_builtins) insertion_order db_mixed_ids 0)
     <> json_dumps (H := sample_builtins)
          (build_snapshot (H := sample_builtins) reverse_order db_mixed_ids 0).
Proof. split; vm_compute; discriminate. Qed.

(** ** C3: the destination file during [atomic_write_json] *)




Example fsync_failure_keeps_old_snapshot :
  let run :=
    atomic_write_json (H := sample_builtins)
      (sample_world Opened (inr "SQLite format 3"%string) false)
      (build_snapshot (H := sample_builtins) insertion_order db_user_42 1700000000)
      "/srv/data/snapshot.json" sample_machine in
  fst run = Uncaught
  /\ files (snd run) !! "/srv/data/snapshot.json"%string
     = Some {| contents := "{}"; mode := 420 |}
  /\ is_Some (files (snd run) !! "/srv/data/tmpa1b2c3d4.json"%string).
Proof. vm_compute. repeat split. eexists. reflexivity. Qed.

(** ** C8: the temporary database file *)

Lemma main_guard (a : args) :
  truthy (arg_db_url a) = true ->
  negb (truthy (arg_db a)) && negb (truthy (arg_db_url a)) = false.
Proof. intros ->. apply andb_false_r. Qed.

(** C8 fails on the code.  When the URL opens and the transfer then breaks,
    [download_to_tmp] exits through [die] without returning the name of the
    file [mkstemp] created; [tmp_db] is still [None] in the [finally] block
    of [main], and the file is left behind when the process exits with
    status 1. *)
Theorem failed_download_leaves_tmp `{Builtins} (a : args) (w : world) (m : machine)
    (tmp : string) :
  truthy (arg_db_url a) = true ->
  w_urlopen w = Opened ->
  w_db_tmp w = Some tmp ->
  files m !! tmp = None ->
  download_breaks w ->
  fst (main a w m) = SysExit 1
  /\ is_Some (files (snd (main a w m)) !! tmp).
Proof.
  intros Hurl Hopen Htmp Hfresh Hbreak.
  unfold main. rewrite main_guard by exact Hurl.
  unfold acquire. rewrite Hurl.
  unfold download_to_tmp, bind, info. simpl. rewrite Hopen.
  unfold mkstemp, bind, get_files, set_files, ret. rewrite Htmp. simpl.
  rewrite Hfresh. simpl.
  unfold download_breaks in Hbreak.
  destruct (w_body w) as [why|body]; simpl.
  - split; [reflexivity|]. rewrite lookup_insert_eq. eauto.
  - destruct (w_store w) as [n|]; [|congruence]. simpl.
    split; [reflexivity|]. rewrite lookup_insert_eq. eauto.
Qed.

Lemma failed_download_leaves_tmp_witness :
  fst (main (H := sample_builtins) url_args
         (sample_world Opened (inl "timed out"%string) true) sample_machine)
  = SysExit 1
  /\ is_Some
       (files (snd (main (H := sample_builtins) url_args
                      (sample_world Opened (inl "timed out"%string) true) sample_machine))
        !! "/tmp/tmpq1w2e3r4.db"%string).
Proof.
  apply (failed_download_leaves_tmp (H := sample_builtins)).
  - reflexivity.
  - reflexivity.
  - reflexivity.
  - vm_compute. reflexivity.
  - simpl. exact I.
Defined.

(** X16.  Once [download_to_tmp] has returned, the [finally] block does
    remove the file, however the rest of the run ends, if [os.remove]
    itself succeeds. *)
Lemma tmp_removed_after_download `{Builtins} (a : args) (w : world) (m m1 : machine)
    (p : option string) (tmp : string) :
  acquire a w m = (Return (p, Some tmp), m1) ->
  tmp <> EmptyString ->
  w_remove_ok w = true ->
  files (snd (main a w m)) !! tmp = None.
Proof.
  intros Hacq Hne Hrm. unfold main.
  assert (Hurl : truthy (arg_db_url a) = true).
  { unfold acquire in Hacq. destruct (truthy (arg_db_url a)); [reflexivity|].
    unfold ret in Hacq. congruence. }
  rewrite main_guard by exact Hurl. rewrite Hacq.
  destruct (build_and_write a w p m1) as [r m2].
  unfold cleanup. destruct tmp as [|c tmp]; [congruence|]. simpl.
  unfold bind, get_files, set_files, ret.
  destruct (files m2 !! String c tmp) eqn:E; [|exact E].
  rewrite Hrm. simpl. apply lookup_delete_eq.
Qed.

Example successful_run :
  let run :=
    main (H := sample_builtins) url_args
      (sample_world Opened (inr "SQLite format 3"%string) true) sample_machine in
  fst run = Return tt
  /\ files (snd run) !! "/tmp/tmpq1w2e3r4.db"%string = None
  /\ files (snd run) !! "/srv/data/tmpa1b2c3d4.json"%string = None
  /\ option_map mode (files (snd run) !! "/srv/data/snapshot.json"%string) = Some 420
  /\ stdout (snd run) =
     ["[INFO] Downloading DB from: https://example.org/credits.db";
      "[INFO] Downloaded to /tmp/tmpq1w2e3r4.db";
      "[INFO] Wrote /srv/data/snapshot.json: users=2, roles=0"]%string.
Proof. vm_compute. repeat split. Qed.

(** ** C6: both sources on the command line *)

(** C6 as stated fails: with [--db] and [--db-url] both given, the file
    opened is the downloaded one, not the local path. *)
Lemma local_path_not_honored :
  fst (acquire both_args (sample_world Opened (inr "SQLite format 3"%string) true)
         sample_machine)
  = Return (Some "/tmp/tmpq1w2e3r4.db"%string, Some "/tmp/tmpq1w2e3r4.db"%string)
  /\ fst (acquire both_args (sample_world Opened (inr "SQLite format 3"%string) true)
            sample_machine)
     <> Return (arg_db both_args, None).
Proof. split; vm_compute; [reflexivity | discriminate]. Qed.

(** C6, as amended.  When a non-empty [--db-url] is given, the remote
    source is the one honored: the run is the same whatever [--db] holds,
    and the path handed to [open_sqlite_ro] is the temporary file of the
    download. *)
Theorem remote_source_wins `{Builtins} (a : args) (w : world) (m : machine) :
  truthy (arg_db_url a) = true ->
  (forall local,
      main {| arg_db := local; arg_db_url := arg_db_url a; arg_out := arg_out a |} w m
      = main a w m)
  /\ (forall db_path tmp_db m',
        acquire a w m = (Return (db_path, tmp_db), m') ->
        db_path = w_db_tmp w /\ tmp_db = w_db_tmp w /\ is_Some (w_db_tmp w)).
Proof.
  intros Hurl. split.
  - intros local. unfold main, acquire, build_and_write.
    cbn [arg_db arg_db_url arg_out]. rewrite Hurl, !andb_false_r. reflexivity.
  - intros db_path tmp_db m'. unfold acquire. rewrite Hurl.
    unfold download_to_tmp, bind, info. simpl.
    destruct (w_urlopen w); simpl; try discriminate.
    unfold mkstemp, bind, get_files, set_files, ret, raise.
    destruct (w_db_tmp w) as [tmp|]; simpl; try discriminate.
    destruct (files m !! tmp); simpl; try discriminate.
    destruct (w_body w); simpl; try discriminate.
    destruct (w_store w); simpl; try discriminate.
    intros E. inversion E; subst. eauto.
Qed.

Lemma remote_source_wins_witness :
  main (H := sample_builtins)
    {| arg_db := None; arg_db_url := arg_db_url both_args; arg_out := arg_out both_args |}
    (sample_world Opened (inr "SQLite format 3"%string) true) sample_machine
  = main (H := sample_builtins) both_args
      (sample_world Opened (inr "SQLite format 3"%string) true) sample_machine.
Proof.
  apply (remote_source_wins (H := sample_builtins) both_args
           (sample_world Opened (inr "SQLite format 3"%string) true) sample_machine).
  reflexivity.
Defined.

(* ===================================================================== *)
(** * Part 6: further properties of the code *)
(* ===================================================================== *)

(** ** The role lists *)

Lemma fold_left_snoc_map {A B} (f : A -> B) (l : list A) (acc : list B) :
  fold_left (fun out r => out ++ [f r]) l acc = acc ++ map f l.
Proof.
  revert acc. induction l as [|a l IH]; intros acc; simpl; [now rewrite app_nil_r|].
  now rewrite IH, <- app_assoc.
Qed.

Lemma read_roles_map `{Builtins} (db : database) (t : role_table) :
  read_roles db t = map role_of_row (rows (select_roles db t)).
Proof.
  unfold read_roles. rewrite try_pass_for_in.
  rewrite (fold_left_ext _ (fun out r => out ++ [role_of_row r]))
    by (intros acc [n a]; reflexivity).
  now rewrite fold_left_snoc_map.
Qed.

(** X1.  Each of the two role lists has one entry per row read from its
    table, in the order read and with repeated names kept: the name as it
    is, the amount through [int_or_0]. *)
Theorem roles_in_read_order `{Builtins} (o : hash_order) (db : database) (now : Z) :
  non_stacking_roles (roles (build_snapshot o db now))
  = map role_of_row (rows (select_roles db tbl_non_stacking_roles))
  /\ role_credits (roles (build_snapshot o db now))
     = map role_of_row (rows (select_roles db tbl_role_credits)).
Proof. split; apply read_roles_map. Qed.

(** ** The [registered] flag *)

(** X2.  Record by record: [registered] is true exactly when the read of
    [register_status] ran to its end and one of its rows holds an
    identifier equal to the record's. *)
Theorem registered_iff_listed `{Builtins} (o : hash_order) (db : database) (now : Z) :
  Forall2
    (fun uid u =>
       registered u = true <->
       raises (select_user_id db tbl_register_status) = false
       /\ exists x, In x (rows (select_user_id db tbl_register_status))
                    /\ py_eqb uid x = true)
    (sorted py_str (set_iter o (collect_user_ids db)))
    (data (build_snapshot o db now)).
Proof.
  rewrite build_snapshot_data.
  induction (sorted py_str (set_iter o (collect_user_ids db))) as [|uid l IH]; simpl;
    constructor; [|exact IH].
  simpl. unfold registered_of.
  rewrite andb_true_iff, negb_true_iff, existsb_exists. reflexivity.
Qed.

(** ** Purchases are neither lost nor repeated *)

Lemma items_of_cons {V} (k : value) (r : value * V) (rs : list (value * V)) :
  items_of k (r :: rs) = if py_eqb k (fst r) then snd r :: items_of k rs else items_of k rs.
Proof. unfold items_of. simpl. now destruct (py_eqb k (fst r)). Qed.

Lemma flat_items_no_match {V} (ids : list value) (r : value * V) (rs : list (value * V)) :
  ~ In (py_key (fst r)) (map py_key ids) ->
  flat_map (fun uid => items_of uid (r :: rs)) ids = flat_map (fun uid => items_of uid rs) ids.
Proof.
  induction ids as [|u ids IH]; intros Hn; simpl; [reflexivity|].
  rewrite items_of_cons.
  destruct (py_eqb u (fst r)) eqn:E.
  - exfalso. apply Hn. left. now apply py_eqb_iff.
  - rewrite IH; [reflexivity|]. intros Hin. apply Hn. now right.
Qed.

Lemma flat_items_one_match {V} (ids : list value) (r : value * V) (rs : list (value * V)) :
  NoDup (map py_key ids) ->
  In (py_key (fst r)) (map py_key ids) ->
  Permutation (flat_map (fun uid => items_of uid (r :: rs)) ids)
              (snd r :: flat_map (fun uid => items_of uid rs) ids).
Proof.
  induction ids as [|u ids IH]; intros Hnd Hin; simpl in *; [destruct Hin|].
  inversion Hnd as [|? ? Hnotin Hnd']; subst.
  rewrite items_of_cons. destruct (py_eqb u (fst r)) eqn:E.
  - apply py_eqb_iff in E. rewrite flat_items_no_match by (rewrite <- E; exact Hnotin).
    reflexivity.
  - destruct Hin as [Hin|Hin].
    + apply py_eqb_iff in Hin. congruence.
    + rewrite (IH Hnd' Hin). symmetry. apply Permutation_middle.
Qed.

Lemma flat_items_all {V} (ids : list value) (rs : list (value * V)) :
  NoDup (map py_key ids) ->
  (forall r, In r rs -> In (py_key (fst r)) (map py_key ids)) ->
  Permutation (flat_map (fun uid => items_of uid rs) ids) (map snd rs).
Proof.
  intros Hnd. induction rs as [|r rs IH]; intros Hcov.
  - simpl. induction ids as [|u ids IHi]; simpl; [reflexivity|].
    inversion Hnd; subst. now apply IHi.
  - rewrite flat_items_one_match; [|exact Hnd | apply Hcov; now left].
    simpl. constructor. apply IH. intros r' Hr'. apply Hcov. now right.
Qed.

(** X3.  When the identifier of every [user_purchases] row was met by the
    [SELECT user_id] reads, the [purchases] lists of all records together
    hold the item of every row exactly once. *)
Theorem purchases_conserved `{Builtins} (o : hash_order) (db : database) (now : Z) :
  (forall r, In r (rows (select_purchases db)) -> In (fst r) (seen_user_ids db)) ->
  Permutation (flat_map purchases (data (build_snapshot o db now)))
              (map snd (rows (select_purchases db))).
Proof.
  intros Hcov. rewrite build_snapshot_data.
  rewrite flat_map_concat_map, map_map, <- flat_map_concat_map.
  change (fun x => purchases (user_of db x))
    with (fun uid => items_of uid (rows (select_purchases db))).
  assert (Hp : Permutation (sorted py_str (set_iter o (collect_user_ids db)))
                           (collect_user_ids db))
    by (rewrite sorted_perm; apply set_iter_perm).
  rewrite (Permutation_flat_map _ Hp).
  apply flat_items_all; [apply collect_user_ids_nodup|].
  intros r Hr. apply Hcov in Hr. apply collect_user_ids_covers in Hr as (u & Hu & E).
  rewrite <- E. now apply in_map.
Qed.

Lemma purchases_conserved_witness :
  Permutation
    (flat_map purchases
       (data (build_snapshot (H := sample_builtins) reverse_order db_user_42 0)))
    (map snd (rows (select_purchases db_user_42))).
Proof.
  apply (purchases_conserved (H := sample_builtins) reverse_order db_user_42 0).
  intros r Hr. vm_compute in Hr.
  repeat match goal with
         | Hx : _ \/ _ |- _ => destruct Hx as [Hx|Hx]
         | Hx : False |- _ => destruct Hx
         end; subst; vm_compute; tauto.
Defined.

(** ** A source nothing can be read from *)

Lemma collect_user_ids_no_rows (db : database) :
  (forall t, rows (select_user_id db t) = []) -> collect_user_ids db = [].
Proof.
  intros E. rewrite collect_user_ids_add_all. unfold seen_user_ids, user_tables.
  simpl. now rewrite !E.
Qed.

Lemma string_app_assoc (a b c : string) : ((a ++ b) ++ c = a ++ (b ++ c))%string.
Proof.
  induction a as [|x a IH]; [reflexivity|].
  change (String x ((a ++ b) ++ c) = String x (a ++ (b ++ c)))%string.
  now rewrite IH.
Qed.

(** X4.  When the four [SELECT user_id] reads and the two role reads yield
    no row (the tables are missing or empty, or the file is no database at
    all), [data] is empty whatever the other reads return, and the document
    is the empty snapshot with the current time. *)
Theorem unreadable_source_gives_empty_document `{Builtins} (o : hash_order)
    (db : database) (now : Z) :
  (forall t, rows (select_user_id db t) = []) ->
  (forall t, rows (select_roles db t) = []) ->
  data (build_snapshot o db now) = []
  /\ json_dumps (build_snapshot o db now) = inr (empty_document now).
Proof.
  intros Eu Er.
  assert (Ed : data (build_snapshot o db now) = []).
  { rewrite build_snapshot_data, (collect_user_ids_no_rows db Eu).
    pose proof (Permutation_sym (set_iter_perm o [])) as Hp. apply Permutation_nil in Hp.
    now rewrite Hp. }
  split; [exact Ed|].
  assert (Erl : forall t, read_roles db t = []).
  { intros t. unfold read_roles. rewrite try_pass_for_in, Er. reflexivity. }
  assert (Es : build_snapshot o db now
               = {| generated_at := now; data := [];
                    roles := {| non_stacking_roles := []; role_credits := [] |} |}).
  { rewrite <- Ed. unfold build_snapshot. cbn [data]. now rewrite !Erl. }
  rewrite Es. unfold empty_document.
  cbv -[json_int String.append json_string].
  rewrite !string_app_assoc. reflexivity.
Qed.

Lemma unreadable_source_gives_empty_document_witness :
  data (build_snapshot (H := sample_builtins) insertion_order db_unreadable 1700000000) = []
  /\ json_dumps (H := sample_builtins)
       (build_snapshot (H := sample_builtins) insertion_order db_unreadable 1700000000)
     = inr (empty_document 1700000000).
Proof.
  apply (unreadable_source_gives_empty_document (H := sample_builtins)
           insertion_order db_unreadable 1700000000).
  - intros t. reflexivity.
  - intros t. reflexivity.
Defined.

(** ** What the encoder accepts *)

Lemma forallb_map_comp {A B} (f : B -> bool) (g : A -> B) (l : list A) :
  forallb f (map g l) = forallb (fun x => f (g x)) l.
Proof. induction l as [|x l IH]; simpl; [reflexivity|]. now rewrite IH. Qed.

Lemma forallb_pointwise {A} (f g : A -> bool) (l : list A) :
  (forall x, f x = g x) -> forallb f l = forallb g l.
Proof. intros E. induction l as [|x l IH]; simpl; [reflexivity|]. now rewrite E, IH. Qed.

Lemma forallb_negb_existsb {A} (f : A -> bool) (l : list A) :
  forallb (fun x => negb (f x)) l = negb (existsb f l).
Proof.
  induction l as [|x l IH]; simpl; [reflexivity|]. now rewrite IH, negb_orb.
Qed.

Lemma existsb_none {A} (f : A -> bool) (l : list A) :
  (forall x, In x l -> f x = false) -> existsb f l = false.
Proof.
  intros Hf. induction l as [|x l IH]; simpl; [reflexivity|].
  rewrite (Hf x) by now left. apply IH. intros y Hy. apply Hf. now right.
Qed.

Lemma encodes_jcat (a b : jresult) : encodes (jcat a b) = encodes a && encodes b.
Proof. destruct a, b; reflexivity. Qed.

Lemma encodes_json_items (l : list jresult) : encodes (json_items l) = forallb encodes l.
Proof.
  induction l as [|x l IH]; [reflexivity|].
  destruct l as [|y l].
  - simpl. now rewrite andb_true_r.
  - change (json_items (x :: y :: l))
      with (jcat x (jcat (inr ","%string) (json_items (y :: l)))).
    rewrite !encodes_jcat, IH. reflexivity.
Qed.

Lemma encodes_json_list (l : list jresult) : encodes (json_list l) = forallb encodes l.
Proof.
  unfold json_list. rewrite !encodes_jcat, encodes_json_items. simpl.
  now rewrite andb_true_r.
Qed.

Lemma encodes_json_object (fields : list (string * jresult)) :
  encodes (json_object fields) = forallb (fun kv => encodes (snd kv)) fields.
Proof.
  unfold json_object. rewrite !encodes_jcat, encodes_json_items. simpl.
  rewrite andb_true_r, forallb_map_comp. apply forallb_pointwise. intros [k v].
  now destruct v.
Qed.

Lemma encodes_json_value `{Builtins} (v : value) : encodes (json_value v) = negb (is_bytes v).
Proof. destruct v as [|z|[s|[]| |s m e]|s|b]; reflexivity. Qed.

Lemma encodes_json_number (z : Z) : encodes (json_number z) = int_printable z.
Proof. unfold json_number. now destruct (int_printable z). Qed.

Lemma forallb_andb {A} (f g : A -> bool) (l : list A) :
  forallb (fun x => f x && g x) l = forallb f l && forallb g l.
Proof.
  induction l as [|x l IH]; simpl; [reflexivity|]. rewrite IH.
  destruct (f x), (g x), (forallb f l); reflexivity.
Qed.

Lemma encodes_json_user `{Builtins} (u : user) :
  encodes (json_user u) = negb (user_has_bytes u) && negb (user_has_long_int u).
Proof.
  unfold json_user, user_has_bytes, user_has_long_int.
  rewrite encodes_json_object. simpl.
  unfold json_credits, json_daily. rewrite !encodes_json_object. simpl.
  rewrite encodes_json_list, forallb_map_comp, encodes_json_value, !encodes_json_number.
  rewrite (forallb_pointwise _ (fun v => negb (is_bytes v))) by apply encodes_json_value.
  rewrite forallb_negb_existsb.
  destruct (is_bytes (last_claim (daily u))), (existsb is_bytes (purchases u)),
    (int_printable (current_credits (credits u))),
    (int_printable (max_credits (credits u))),
    (int_printable (removed_credits (credits u))),
    (int_printable (streak (daily u))), (int_printable (net_credits u)); reflexivity.
Qed.

Lemma encodes_json_role `{Builtins} (r : role_entry) :
  encodes (json_role r)
  = negb (is_bytes (role_name r)) && negb (role_has_long_int r).
Proof.
  unfold json_role, role_has_long_int. rewrite encodes_json_object. simpl.
  rewrite encodes_json_value, encodes_json_number, negb_involutive.
  now rewrite andb_true_r.
Qed.

Lemma encodes_json_roles_list `{Builtins} (l : list role_entry) :
  encodes (json_list (map json_role l))
  = negb (existsb (fun r => is_bytes (role_name r)) l)
    && negb (existsb role_has_long_int l).
Proof.
  rewrite encodes_json_list, forallb_map_comp.
  rewrite (forallb_pointwise _
             (fun r => negb (is_bytes (role_name r)) && negb (role_has_long_int r)))
    by apply encodes_json_role.
  now rewrite forallb_andb, !forallb_negb_existsb.
Qed.

Lemma encodes_json_dumps_parts `{Builtins} (s : snapshot) :
  encodes (json_dumps s)
  = (negb (existsb user_has_bytes (data s))
     && negb (existsb user_has_long_int (data s)))
    && ((negb (existsb (fun r => is_bytes (role_name r)) (non_stacking_roles (roles s)))
         && negb (existsb role_has_long_int (non_stacking_roles (roles s))))
        && (negb (existsb (fun r => is_bytes (role_name r)) (role_credits (roles s)))
            && negb (existsb role_has_long_int (role_credits (roles s))))).
Proof.
  unfold json_dumps. rewrite encodes_json_object. simpl.
  unfold json_roles. rewrite encodes_json_object. simpl.
  rewrite !encodes_json_roles_list, encodes_json_list, forallb_map_comp.
  rewrite (forallb_pointwise _
             (fun u => negb (user_has_bytes u) && negb (user_has_long_int u)))
    by apply encodes_json_user.
  rewrite forallb_andb, !forallb_negb_existsb, !andb_true_r. reflexivity.
Qed.

(** X5.  The encoder runs to the end on a snapshot exactly when no
    [last_claim], no purchase item and no [role_name] is a [bytes] object
    and no amount ([current_credits], [max_credits], [removed_credits],
    [streak], [net_credits], [credit_amount]) has more than 4300 digits. *)
Theorem json_dumps_raises_on_bytes_or_long_int `{Builtins} (s : snapshot) :
  encodes (json_dumps s) = negb (has_bytes s) && negb (has_long_int s).
Proof.
  rewrite encodes_json_dumps_parts. unfold has_bytes, has_long_int.
  destruct (existsb user_has_bytes (data s)),
    (existsb user_has_long_int (data s)),
    (existsb (fun r => is_bytes (role_name r)) (non_stacking_roles (roles s))),
    (existsb role_has_long_int (non_stacking_roles (roles s))),
    (existsb (fun r => is_bytes (role_name r)) (role_credits (roles s))),
    (existsb role_has_long_int (role_credits (roles s))); reflexivity.
Qed.

Lemma last_row_in {R} (key : R -> value) (k : value) (rs : list R) (r : R) :
  last_row key k rs = Some r -> In r rs.
Proof. unfold last_row. intros E. apply find_some in E as [Hin _]. now apply in_rev. Qed.

Lemma small_int_printable (z : Z) :
  - 2 ^ 64 <= z <= 2 ^ 64 -> int_printable z = true.
Proof.
  intros Hz. unfold int_printable. apply Z.ltb_lt.
  assert (H1 : 2 ^ 64 < 10 ^ 20) by reflexivity.
  assert (H2 : 10 ^ 20 <= 10 ^ max_str_digits)
    by (apply Z.pow_le_mono_r; [reflexivity | discriminate]).
  set (big := 10 ^ max_str_digits) in *. lia.
Qed.

Lemma int_or_0_sqlite_integer `{Builtins} (v : value) :
  integer_or_null v = true -> - 2 ^ 63 <= int_or_0 v < 2 ^ 63.
Proof.
  destruct v as [|z|f|s|b]; try discriminate.
  - intros _. unfold int_or_0. simpl. split; [|reflexivity]. discriminate.
  - unfold integer_or_null, int64, int_or_0. simpl.
    rewrite andb_true_iff, Z.leb_le, Z.ltb_lt. tauto.
Qed.

(** X6.  A source whose amount columns hold INTEGER or NULL cells only and
    whose [last_claim], [item_name] and [role_name] columns hold no BLOB
    always gives a snapshot the encoder accepts, whatever the [user_id]
    cells hold: the amounts are 64-bit, so neither they nor [net_credits]
    reach the digit limit. *)
Theorem blob_free_source_serializes `{Builtins} (o : hash_order) (db : database) (now : Z) :
  Forall (fun r => amounts_are_integers r = true) (rows (select_credits db)) ->
  Forall (fun r => is_bytes (daily_last r) = false
                   /\ integer_or_null (daily_streak r) = true)
         (rows (select_daily db)) ->
  Forall (fun r => is_bytes (snd r) = false) (rows (select_purchases db)) ->
  (forall t, Forall (fun r => is_bytes (fst r) = false
                              /\ integer_or_null (snd r) = true)
                    (rows (select_roles db t))) ->
  encodes (json_dumps (build_snapshot o db now)) = true.
Proof.
  intros Hc Hd Hp Hr. rewrite Forall_forall in Hc, Hd, Hp.
  rewrite encodes_json_dumps_parts.
  assert (Hroles : forall t,
             existsb (fun r => is_bytes (role_name r)) (read_roles db t) = false
             /\ existsb role_has_long_int (read_roles db t) = false).
  { intros t. rewrite read_roles_map. specialize (Hr t). rewrite Forall_forall in Hr.
    split; apply existsb_none; intros r Hin;
      apply in_map_iff in Hin as (row & <- & Hin); destruct (Hr _ Hin) as [Hb Hi].
    - exact Hb.
    - unfold role_has_long_int, role_of_row. simpl. apply negb_false_iff.
      apply small_int_printable. pose proof (int_or_0_sqlite_integer _ Hi). lia. }
  assert (Hcred : forall uid,
             - 2 ^ 63 <= current_credits (credits_of db uid) < 2 ^ 63
             /\ - 2 ^ 63 <= max_credits (credits_of db uid) < 2 ^ 63
             /\ - 2 ^ 63 <= removed_credits (credits_of db uid) < 2 ^ 63).
  { intros uid. unfold credits_of.
    destruct (last_row credits_key uid _) as [[[[k c] mx] rm]|] eqn:E.
    - apply last_row_in in E. specialize (Hc _ E). unfold amounts_are_integers in Hc.
      apply andb_true_iff in Hc as [Hc Hrm]. apply andb_true_iff in Hc as [Hcu Hmx].
      simpl. repeat split; now apply int_or_0_sqlite_integer.
    - simpl. repeat split; try reflexivity; discriminate. }
  assert (Hstreak : forall uid,
             is_bytes (last_claim (daily_of db uid)) = false
             /\ - 2 ^ 63 <= streak (daily_of db uid) < 2 ^ 63).
  { intros uid. unfold daily_of.
    destruct (last_row daily_key uid _) as [[[k l] st]|] eqn:E.
    - apply last_row_in in E. destruct (Hd _ E) as [Hb Hi]. simpl in *.
      split; [exact Hb|]. now apply int_or_0_sqlite_integer.
    - simpl. repeat split; try reflexivity; discriminate. }
  rewrite build_snapshot_data. unfold build_snapshot.
  cbn [roles non_stacking_roles role_credits].
  destruct (Hroles tbl_non_stacking_roles) as [-> ->].
  destruct (Hroles tbl_role_credits) as [-> ->]. simpl. rewrite andb_true_r.
  apply andb_true_iff. split; apply negb_true_iff; apply existsb_none;
    intros u Hu; apply in_map_iff in Hu as (uid & <- & _).
  - unfold user_has_bytes. simpl. apply orb_false_iff. split.
    + apply Hstreak.
    + unfold purchases_of, items_of. apply existsb_none. intros v Hv.
      apply in_map_iff in Hv as (row & <- & Hin). apply filter_In in Hin as [Hin _].
      now apply Hp.
  - unfold user_has_long_int. simpl.
    destruct (Hcred uid) as (H1 & H2 & H3). destruct (Hstreak uid) as [_ H4].
    rewrite !small_int_printable by lia. reflexivity.
Qed.

Lemma blob_free_source_serializes_witness :
  encodes (json_dumps (H := sample_builtins)
             (build_snapshot (H := sample_builtins) insertion_order db_user_42 0)) = true.
Proof.
  apply (blob_free_source_serializes (H := sample_builtins) insertion_order db_user_42 0).
  - repeat constructor.
  - repeat constructor.
  - repeat constructor.
  - intros t. destruct t; constructor.
Defined.

(** X7.  A snapshot with a [bytes] object in one of those places is never
    written: in every run [atomic_write_json] ends in an exception before
    the replace step. *)
Theorem blob_aborts_write `{Builtins} (w : world) (obj : snapshot) (out_path : string)
    (m : machine) :
  has_bytes obj = true ->
  replace_succeeds w obj out_path m = false
  /\ fst (atomic_write_json w obj out_path m) = Uncaught.
Proof.
  intros Hb.
  assert (Hj : exists written, json_dumps obj = inl written).
  { pose proof (encodes_json_dumps_parts obj) as E.
    destruct (json_dumps obj) as [written|text]; [eauto|].
    simpl in E. symmetry in E.
    apply andb_true_iff in E as [Ea E]. apply andb_true_iff in E as [Eb Ec].
    apply andb_true_iff in Ea as [Ea _]. apply andb_true_iff in Eb as [Eb _].
    apply andb_true_iff in Ec as [Ec _].
    apply negb_true_iff in Ea, Eb, Ec.
    unfold has_bytes in Hb. rewrite Ea, Eb, Ec in Hb. discriminate. }
  destruct Hj as [written Hj]. split.
  - unfold replace_succeeds. rewrite Hj. simpl.
    now rewrite andb_false_r.
  - unfold atomic_write_json, mkstemp, store, bind, set_files, get_files, ret, raise.
    rewrite Hj.
    destruct (String.eqb (dirname out_path) EmptyString || negb (w_makedirs_ok w)); simpl;
      [reflexivity|].
    destruct (w_out_tmp w) as [tmp|]; simpl; [|reflexivity].
    now destruct (files m !! tmp).
Qed.

(** A snapshot whose only user claimed with a BLOB timestamp. *)
Lemma blob_aborts_write_witness :
  fst (atomic_write_json (H := sample_builtins)
         (sample_world Opened (inr "SQLite format 3"%string) true)
         {| generated_at := 0;
            data := [ {| user_id := "7"; registered := false; credits := zero_credits;
                         daily := {| last_claim := PBytes "x"; streak := 1 |};
                         purchases := []; net_credits := 0 |} ];
            roles := {| non_stacking_roles := []; role_credits := [] |} |}
         "/srv/data/snapshot.json" sample_machine)
  = Uncaught.
Proof.
  apply (blob_aborts_write (H := sample_builtins)).
  reflexivity.
Defined.

(** ** The outcomes of [atomic_write_json] *)

Lemma replace_succeeds_inv `{Builtins} (w : world) (obj : snapshot) (out_path : string)
    (m : machine) :
  replace_succeeds w obj out_path m = true ->
  String.eqb (dirname out_path) EmptyString = false
  /\ w_makedirs_ok w = true
  /\ (exists tmp, w_out_tmp w = Some tmp /\ files m !! tmp = None)
  /\ (exists text, json_dumps obj = inr text)
  /\ w_write w = None
  /\ w_fsync_ok w = true
  /\ w_replace_ok w = true.
Proof.
  unfold replace_succeeds. rewrite !andb_true_iff, negb_true_iff.
  intros ((((((Hd & Hm) & Ht) & Hj) & Hw) & Hf) & Hr).
  repeat split; try assumption.
  - destruct (w_out_tmp w) as [tmp|]; [|discriminate].
    exists tmp. split; [reflexivity|]. now destruct (files m !! tmp).
  - destruct (json_dumps obj) as [|text]; [discriminate|]. now exists text.
  - now destruct (w_write w).
Qed.

(** X8.  When every step succeeds, [atomic_write_json] returns and the
    regular files are those before the call, with the destination holding
    the complete document, mode 0644: the temporary file is gone and no
    other regular file has changed. *)
Theorem atomic_write_json_success `{Builtins} (w : world) (obj : snapshot)
    (out_path : string) (m : machine) :
  replace_succeeds w obj out_path m = true ->
  w_chmod_ok w = true ->
  exists text,
    json_dumps obj = inr text
    /\ fst (atomic_write_json w obj out_path m) = Return tt
    /\ files (snd (atomic_write_json w obj out_path m))
       = <[out_path := {| contents := text; mode := 420 |}]> (files m).
Proof.
  intros Hs Hc.
  apply replace_succeeds_inv in Hs
    as (Hd & Hm & (tmp & Ht & Hfresh) & (text & Hj) & Hw & Hf & Hr).
  exists text. split; [exact Hj|].
  unfold atomic_write_json, mkstemp, store, bind, set_files, get_files, ret, raise.
  rewrite Hd, Hm, Ht, Hj, Hw, Hf, Hr, Hc. simpl. rewrite Hfresh. simpl.
  rewrite !lookup_insert_eq. simpl. rewrite !lookup_insert_eq. simpl.
  split; [reflexivity|].
  rewrite insert_insert_eq, !delete_insert_eq, (delete_id _ _ Hfresh). reflexivity.
Qed.

Lemma atomic_write_json_success_witness :
  exists text,
    json_dumps (H := sample_builtins)
      (build_snapshot (H := sample_builtins) insertion_order db_user_42 1700000000)
    = inr text
    /\ fst (atomic_write_json (H := sample_builtins)
              (sample_world Opened (inr "SQLite format 3"%string) true)
              (build_snapshot (H := sample_builtins) insertion_order db_user_42 1700000000)
              "/srv/data/snapshot.json" sample_machine)
       = Return tt
    /\ files (snd (atomic_write_json (H := sample_builtins)
                     (sample_world Opened (inr "SQLite format 3"%string) true)
                     (build_snapshot (H := sample_builtins) insertion_order db_user_42
                        1700000000)
                     "/srv/data/snapshot.json" sample_machine))
       = <["/srv/data/snapshot.json"%string := {| contents := text; mode := 420 |}]>
           (files sample_machine).
Proof.
  apply (atomic_write_json_success (H := sample_builtins)).
  - vm_compute. reflexivity.
  - reflexivity.
Defined.

(** X9.  When only [os.chmod] fails, the call ends in an exception although
    the destination already holds the complete new document, with the
    owner-only mode 0600 [mkstemp] gave the temporary file. *)
Theorem chmod_failure_leaves_private_file `{Builtins} (w : world) (obj : snapshot)
    (out_path : string) (m : machine) :
  replace_succeeds w obj out_path m = true ->
  w_chmod_ok w = false ->
  exists text,
    json_dumps obj = inr text
    /\ fst (atomic_write_json w obj out_path m) = Uncaught
    /\ files (snd (atomic_write_json w obj out_path m))
       = <[out_path := {| contents := text; mode := 384 |}]> (files m).
Proof.
  intros Hs Hc.
  apply replace_succeeds_inv in Hs
    as (Hd & Hm & (tmp & Ht & Hfresh) & (text & Hj) & Hw & Hf & Hr).
  exists text. split; [exact Hj|].
  unfold atomic_write_json, mkstemp, store, bind, set_files, get_files, ret, raise.
  rewrite Hd, Hm, Ht, Hj, Hw, Hf, Hr, Hc. simpl. rewrite Hfresh. simpl.
  rewrite !lookup_insert_eq. simpl.
  split; [reflexivity|].
  rewrite !delete_insert_eq, (delete_id _ _ Hfresh). reflexivity.
Qed.

Lemma chmod_failure_leaves_private_file_witness :
  exists text,
    json_dumps (H := sample_builtins)
      (build_snapshot (H := sample_builtins) insertion_order db_user_42 1700000000)
    = inr text
    /\ fst (atomic_write_json (H := sample_builtins)
              (chmod_failing (sample_world Opened (inr "SQLite format 3"%string) true))
              (build_snapshot (H := sample_builtins) insertion_order db_user_42 1700000000)
              "/srv/data/snapshot.json" sample_machine)
       = Uncaught
    /\ files (snd (atomic_write_json (H := sample_builtins)
                     (chmod_failing
                        (sample_world Opened (inr "SQLite format 3"%string) true))
                     (build_snapshot (H := sample_builtins) insertion_order db_user_42
                        1700000000)
                     "/srv/data/snapshot.json" sample_machine))
       = <["/srv/data/snapshot.json"%string := {| contents := text; mode := 384 |}]>
           (files sample_machine).
Proof.
  apply (chmod_failure_leaves_private_file (H := sample_builtins)).
  - vm_compute. reflexivity.
  - reflexivity.
Defined.

(** X10.  [atomic_write_json] never removes its temporary file: once
    [mkstemp] has created it, a failure of the encoder, the write, the sync
    or the replace ends the call in an exception with that file still
    there, and no other regular file has changed. *)
Theorem failed_write_leaves_temporary_file `{Builtins} (w : world) (obj : snapshot)
    (out_path tmp : string) (m : machine) :
  String.eqb (dirname out_path) EmptyString = false ->
  w_makedirs_ok w = true ->
  w_out_tmp w = Some tmp ->
  files m !! tmp = None ->
  replace_succeeds w obj out_path m = false ->
  fst (atomic_write_json w obj out_path m) = Uncaught
  /\ exists written,
       files (snd (atomic_write_json w obj out_path m))
       = <[tmp := {| contents := written; mode := 384 |}]> (files m).
Proof.
  intros Hd Hm Ht Hfresh Hs. unfold replace_succeeds in Hs.
  rewrite Hd, Hm, Ht, Hfresh in Hs. simpl in Hs.
  unfold atomic_write_json, mkstemp, store, bind, set_files, get_files, ret, raise.
  rewrite Hd, Hm, Ht. simpl. rewrite Hfresh. simpl.
  destruct (json_dumps obj) as [written|text]; simpl.
  { split; [reflexivity|]. exists written.
    now rewrite lookup_insert_eq, insert_insert_eq. }
  destruct (w_write w) as [n|]; simpl.
  { split; [reflexivity|]. eexists. now rewrite lookup_insert_eq, insert_insert_eq. }
  destruct (w_fsync_ok w); simpl.
  2:{ split; [reflexivity|]. eexists. now rewrite lookup_insert_eq, insert_insert_eq. }
  destruct (w_replace_ok w); simpl; [discriminate|].
  split; [reflexivity|]. eexists. now rewrite lookup_insert_eq, insert_insert_eq.
Qed.

Lemma failed_write_leaves_temporary_file_witness :
  fst (atomic_write_json (H := sample_builtins)
         (sample_world Opened (inr "SQLite format 3"%string) false)
         (build_snapshot (H := sample_builtins) insertion_order db_user_42 1700000000)
         "/srv/data/snapshot.json" sample_machine)
  = Uncaught
  /\ exists written,
       files (snd (atomic_write_json (H := sample_builtins)
                     (sample_world Opened (inr "SQLite format 3"%string) false)
                     (build_snapshot (H := sample_builtins) insertion_order db_user_42
                        1700000000)
                     "/srv/data/snapshot.json" sample_machine))
       = <["/srv/data/tmpa1b2c3d4.json"%string
            := {| contents := written; mode := 384 |}]> (files sample_machine).
Proof.
  apply (failed_write_leaves_temporary_file (H := sample_builtins)).
  - vm_compute. reflexivity.
  - reflexivity.
  - reflexivity.
  - vm_compute. reflexivity.
  - vm_compute. reflexivity.
Defined.

Lemma drop_to_slash_none (l : list ascii) :
  ~ In "/"%char l -> drop_to_slash l = [].
Proof.
  induction l as [|c l IH]; intros Hn; simpl; [reflexivity|].
  destruct (Ascii.eqb_spec c "/") as [->|_]; [exfalso; apply Hn; now left|].
  apply IH. intros Hin. apply Hn. now right.
Qed.

Lemma string_mem_In (c : ascii) (s : string) :
  string_mem c s = true <-> In c (list_ascii_of_string s).
Proof.
  induction s as [|d s IH]; simpl; [split; [discriminate | tauto]|].
  rewrite orb_true_iff, IH. destruct (Ascii.eqb_spec c d); split; intros [?|?]; auto;
    try discriminate; congruence.
Qed.

Lemma dirname_without_slash (p : string) :
  string_mem "/" p = false -> dirname p = EmptyString.
Proof.
  intros Hn. unfold dirname. rewrite drop_to_slash_none; [reflexivity|].
  intros Hin. apply in_rev in Hin. apply string_mem_In in Hin. congruence.
Qed.

(** X11.  An output path without a directory part (no "/" in it, such as
    [snapshot.json]) is always rejected: [os.makedirs] is called on the
    empty path and raises before anything is created or written. *)
Theorem bare_file_name_is_rejected `{Builtins} (w : world) (obj : snapshot)
    (out_path : string) (m : machine) :
  string_mem "/" out_path = false ->
  atomic_write_json w obj out_path m = (Uncaught, m).
Proof.
  intros Hn. unfold atomic_write_json. rewrite (dirname_without_slash _ Hn).
  reflexivity.
Qed.

Lemma bare_file_name_is_rejected_witness :
  atomic_write_json (H := sample_builtins)
    (sample_world Opened (inr "SQLite format 3"%string) true)
    (build_snapshot (H := sample_builtins) insertion_order db_user_42 1700000000)
    "snapshot.json" sample_machine
  = (Uncaught, sample_machine).
Proof.
  apply (bare_file_name_is_rejected (H := sample_builtins)).
  reflexivity.
Defined.

(** ** Runs of [main] that stop before reading *)

(** X12.  With neither [--db] nor [--db-url] (an empty string counts as not
    given), [main] exits with status 1 after one line on the error stream,
    and nothing else happens. *)
Theorem no_source_is_an_error `{Builtins} (a : args) (w : world) (m : machine) :
  truthy (arg_db a) = false ->
  truthy (arg_db_url a) = false ->
  main a w m = (SysExit 1, logged m [] ["[ERROR] Provide either --db or --db-url"%string]).
Proof.
  intros Hd Hu. unfold main. rewrite Hd, Hu. simpl. unfold die, logged.
  now rewrite app_nil_r.
Qed.

Lemma no_source_is_an_error_witness :
  main (H := sample_builtins) no_source_args
    (sample_world Opened (inr "SQLite format 3"%string) true) sample_machine
  = (SysExit 1,
     logged sample_machine [] ["[ERROR] Provide either --db or --db-url"%string]).
Proof.
  apply (no_source_is_an_error (H := sample_builtins)).
  - reflexivity.
  - reflexivity.
Defined.

(** X13.  With a local path that does not exist (and no URL), [main] exits
    with status 1 after reporting the path on the error stream; no file is
    created, changed or removed. *)
Theorem missing_local_file_is_an_error `{Builtins} (a : args) (w : world) (m : machine)
    (path : string) :
  truthy (arg_db_url a) = false ->
  arg_db a = Some path ->
  path <> EmptyString ->
  files m !! path = None ->
  main a w m
  = (SysExit 1, logged m [] [("[ERROR] DB file not found: " ++ path)%string]).
Proof.
  intros Hu Hd Hne Hmiss. unfold main. rewrite Hu, Hd.
  destruct path as [|c path]; [congruence|]. simpl.
  unfold acquire. rewrite Hu, Hd. unfold ret, build_and_write, open_sqlite_ro,
    bind, get_files. simpl. rewrite Hmiss. unfold die, cleanup. simpl.
  unfold ret, logged. now rewrite app_nil_r.
Qed.

Lemma missing_local_file_is_an_error_witness :
  main (H := sample_builtins) (local_args "/srv/missing.db")
    (sample_world Opened (inr "SQLite format 3"%string) true) sample_machine
  = (SysExit 1,
     logged sample_machine [] ["[ERROR] DB file not found: /srv/missing.db"%string]).
Proof.
  apply (missing_local_file_is_an_error (H := sample_builtins)
           (local_args "/srv/missing.db")).
  - reflexivity.
  - reflexivity.
  - discriminate.
  - vm_compute. reflexivity.
Defined.

(** X14.  When [urlopen] itself fails, [main] exits with status 1 after
    the download line on the output stream and one line on the error
    stream, which gives status code and reason for an HTTP error and the
    text of the exception otherwise; no file is created. *)
Theorem failed_urlopen_is_reported `{Builtins} (a : args) (w : world) (m : machine)
    (url : string) :
  arg_db_url a = Some url ->
  url <> EmptyString ->
  w_urlopen w <> Opened ->
  main a w m
  = (SysExit 1,
     logged m [("[INFO] Downloading DB from: " ++ url)%string]
       [("[ERROR] "
         ++ match w_urlopen w with
            | HTTPError code reason =>
                "HTTP error " ++ json_int code ++ " while fetching DB: " ++ reason
            | FetchFailed why => "Failed to download DB: " ++ why
            | Opened => EmptyString
            end)%string]).
Proof.
  intros Hu Hne Ho. unfold main. rewrite Hu.
  destruct url as [|c url]; [congruence|]. simpl. rewrite andb_false_r.
  unfold acquire. rewrite Hu. simpl.
  unfold download_to_tmp, bind, info.
  destruct (w_urlopen w); [| |congruence]; unfold die, cleanup; reflexivity.
Qed.

Lemma failed_urlopen_is_reported_witness :
  main (H := sample_builtins) url_args
    (sample_world (HTTPError 404 "Not Found") (inr EmptyString) true) sample_machine
  = (SysExit 1,
     logged sample_machine
       ["[INFO] Downloading DB from: https://example.org/credits.db"%string]
       ["[ERROR] HTTP error 404 while fetching DB: Not Found"%string]).
Proof.
  apply (failed_urlopen_is_reported (H := sample_builtins) url_args
           (sample_world (HTTPError 404 "Not Found") (inr EmptyString) true)
           sample_machine "https://example.org/credits.db").
  - reflexivity.
  - discriminate.
  - discriminate.
Defined.

(** ** The download *)

(** X15.  When the transfer goes through, [download_to_tmp] returns the
    name [mkstemp] chose; the only change to the file system is that file,
    which holds exactly the body and is readable by its owner only, and
    two lines went to the output stream. *)
Theorem download_stores_body (w : world) (url tmp body : string) (m : machine) :
  w_urlopen w = Opened ->
  w_db_tmp w = Some tmp ->
  files m !! tmp = None ->
  w_body w = inr body ->
  w_store w = None ->
  fst (download_to_tmp w url m) = Return tmp
  /\ files (snd (download_to_tmp w url m))
     = <[tmp := {| contents := body; mode := 384 |}]> (files m)
  /\ stdout (snd (download_to_tmp w url m))
     = stdout m ++ [("[INFO] Downloading DB from: " ++ url)%string;
                    ("[INFO] Downloaded to " ++ tmp)%string]
  /\ stderr (snd (download_to_tmp w url m)) = stderr m.
Proof.
  intros Ho Ht Hfresh Hb Hs.
  unfold download_to_tmp, bind, info. rewrite Ho. simpl.
  unfold mkstemp, bind, get_files, set_files, ret. rewrite Ht. simpl. rewrite Hfresh. simpl.
  rewrite Hb, Hs. unfold store, bind, get_files, set_files, ret. simpl.
  rewrite lookup_insert_eq, insert_insert_eq. simpl.
  repeat split. now rewrite <- app_assoc.
Qed.

Lemma download_stores_body_witness :
  fst (download_to_tmp (sample_world Opened (inr "SQLite format 3"%string) true)
         "https://example.org/credits.db" sample_machine)
  = Return "/tmp/tmpq1w2e3r4.db"%string
  /\ files (snd (download_to_tmp (sample_world Opened (inr "SQLite format 3"%string) true)
                   "https://example.org/credits.db" sample_machine))
     = <["/tmp/tmpq1w2e3r4.db"%string := {| contents := "SQLite format 3"; mode := 384 |}]>
         (files sample_machine)
  /\ stdout (snd (download_to_tmp (sample_world Opened (inr "SQLite format 3"%string) true)
                    "https://example.org/credits.db" sample_machine))
     = stdout sample_machine
       ++ [("[INFO] Downloading DB from: " ++ "https://example.org/credits.db")%string;
           ("[INFO] Downloaded to " ++ "/tmp/tmpq1w2e3r4.db")%string]
  /\ stderr (snd (download_to_tmp (sample_world Opened (inr "SQLite format 3"%string) true)
                    "https://example.org/credits.db" sample_machine))
     = stderr sample_machine.
Proof.
  apply (download_stores_body (sample_world Opened (inr "SQLite format 3"%string) true)).
  - reflexivity.
  - reflexivity.
  - vm_compute. reflexivity.
  - reflexivity.
  - reflexivity.
Defined.

(** A run in which the download goes through and the write then fails at
    [os.fsync]: the downloaded file is removed all the same. *)
Lemma tmp_removed_after_download_witness :
  files (snd (main (H := sample_builtins) url_args
                (sample_world Opened (inr "SQLite format 3"%string) false)
                sample_machine))
  !! "/tmp/tmpq1w2e3r4.db"%string = None.
Proof.
  apply (tmp_removed_after_download (H := sample_builtins) url_args
           (sample_world Opened (inr "SQLite format 3"%string) false) sample_machine
           (snd (acquire url_args
                   (sample_world Opened (inr "SQLite format 3"%string) false)
                   sample_machine))
           (Some "/tmp/tmpq1w2e3r4.db"%string)).
  - vm_compute. reflexivity.
  - discriminate.
  - reflexivity.
Defined.

(** ** What [main] touches *)

Lemma atomic_write_json_frame `{Builtins} (w : world) (obj : snapshot) (out_path : string)
    (m : machine) (p : string) :
  p <> out_path -> w_out_tmp w <> Some p ->
  files (snd (atomic_write_json w obj out_path m)) !! p = files m !! p.
Proof.
  intros Hout Htmp.
  unfold atomic_write_json, mkstemp, store, bind, set_files, get_files, ret, raise.
  destruct (String.eqb (dirname out_path) EmptyString || negb (w_makedirs_ok w)); simpl;
    [reflexivity|].
  destruct (w_out_tmp w) as [tmp|]; simpl; [|reflexivity].
  assert (Hpt : tmp <> p) by congruence.
  destruct (files m !! tmp); simpl; [reflexivity|].
  destruct (json_dumps obj) as [written|text]; simpl;
    [now rewrite !lookup_insert_ne by congruence|].
  destruct (w_write w); simpl; [now rewrite !lookup_insert_ne by congruence|].
  destruct (w_fsync_ok w); simpl; [|now rewrite !lookup_insert_ne by congruence].
  destruct (w_replace_ok w); simpl; [|now rewrite !lookup_insert_ne by congruence].
  rewrite !lookup_insert_eq. simpl.
  destruct (w_chmod_ok w); simpl; rewrite ?lookup_insert_eq; simpl;
    rewrite ?lookup_insert_ne by congruence;
    rewrite lookup_delete_ne by congruence;
    now rewrite !lookup_insert_ne by congruence.
Qed.

Lemma download_to_tmp_frame (w : world) (url : string) (m : machine) (p : string) :
  w_db_tmp w <> Some p ->
  files (snd (download_to_tmp w url m)) !! p = files m !! p.
Proof.
  intros Htmp. unfold download_to_tmp, bind, info, die.
  destruct (w_urlopen w); simpl; try reflexivity.
  unfold mkstemp, store, bind, get_files, set_files, ret, raise.
  destruct (w_db_tmp w) as [tmp|]; simpl; [|reflexivity].
  assert (Hpt : tmp <> p) by congruence.
  destruct (files m !! tmp); simpl; [reflexivity|].
  destruct (w_body w); simpl; [now rewrite lookup_insert_ne by congruence|].
  destruct (w_store w); simpl; now rewrite !lookup_insert_ne by congruence.
Qed.

Lemma open_sqlite_ro_frame (w : world) (path : option string) (m : machine)
    (p : string) :
  (forall fs, w_sqlite_fs w fs !! p = fs !! p) ->
  files (snd (open_sqlite_ro w path m)) !! p = files m !! p.
Proof.
  intros Hsql. unfold open_sqlite_ro, bind, get_files, set_files, ret, raise, die.
  destruct path as [q|]; simpl; [|reflexivity].
  destruct (files m !! q); simpl; [|reflexivity].
  destruct (w_connect_uri w); simpl; try apply Hsql.
  destruct (w_connect_path w); apply Hsql.
Qed.

Lemma open_sqlite_ro_returns (w : world) (path : option string) (m m1 : machine)
    (conn : database) :
  open_sqlite_ro w path m = (Return conn, m1) ->
  connected_db w = Some conn /\ stdout m1 = stdout m /\ stderr m1 = stderr m.
Proof.
  unfold open_sqlite_ro, connected_db, bind, get_files, set_files, ret, raise, die.
  destruct path as [p|]; simpl; [|discriminate].
  destruct (files m !! p); simpl; [|discriminate].
  destruct (w_connect_uri w); simpl; try discriminate.
  - intros E. inversion E. auto.
  - destruct (w_connect_path w); simpl; [|discriminate]. intros E. inversion E. auto.
Qed.

Lemma build_and_write_frame `{Builtins} (a : args) (w : world) (path : option string)
    (m : machine) (p : string) :
  p <> arg_out a -> w_out_tmp w <> Some p ->
  (forall fs, w_sqlite_fs w fs !! p = fs !! p) ->
  files (snd (build_and_write a w path m)) !! p = files m !! p.
Proof.
  intros Hout Htmp Hsql. unfold build_and_write, bind.
  pose proof (open_sqlite_ro_frame w path m p Hsql) as Ho.
  destruct (open_sqlite_ro w path m) as [[conn|rc|] m1]; simpl in *;
    try (now rewrite Ho).
  pose proof (atomic_write_json_frame w
                (build_snapshot (w_order w) conn (w_now w)) (arg_out a) m1 p Hout Htmp) as Hw.
  destruct (atomic_write_json w _ (arg_out a) m1) as [[[]|rc|] m2]; simpl in *;
    now rewrite Hw, Ho.
Qed.

Lemma cleanup_frame (w : world) (tmp_db : option string) (m : machine) (p : string) :
  tmp_db <> Some p -> files (snd (cleanup w tmp_db m)) !! p = files m !! p.
Proof.
  intros Hne. unfold cleanup, bind, get_files, set_files, ret.
  destruct (truthy tmp_db); [|reflexivity].
  destruct tmp_db as [tmp|]; [|reflexivity]. simpl.
  destruct (files m !! tmp); simpl; [|reflexivity].
  destruct (w_remove_ok w); simpl; [|reflexivity].
  apply lookup_delete_ne. congruence.
Qed.

Lemma cleanup_keeps_absent (w : world) (tmp_db : option string) (m : machine) (p : string) :
  files m !! p = None -> files (snd (cleanup w tmp_db m)) !! p = None.
Proof.
  intros Hn. unfold cleanup, bind, get_files, set_files, ret.
  destruct (truthy tmp_db); [|exact Hn].
  destruct tmp_db as [tmp|]; [|exact Hn]. simpl.
  destruct (files m !! tmp); simpl; [|exact Hn].
  destruct (w_remove_ok w); simpl; [|exact Hn].
  destruct (decide (tmp = p)) as [->|Hne]; [apply lookup_delete_eq|].
  now rewrite lookup_delete_ne.
Qed.

Lemma acquire_returns (a : args) (w : world) (m m1 : machine) (q t : option string) :
  acquire a w m = (Return (q, t), m1) ->
  ((truthy (arg_db_url a) = false /\ t = None)
   \/ (truthy (arg_db_url a) = true /\ t = w_db_tmp w))
  /\ stderr m1 = stderr m
  /\ exists pre, stdout m1 = stdout m ++ pre.
Proof.
  unfold acquire. destruct (truthy (arg_db_url a)).
  - unfold download_to_tmp, bind, info, die.
    destruct (w_urlopen w); simpl; try discriminate.
    unfold mkstemp, store, bind, get_files, set_files, ret, raise.
    destruct (w_db_tmp w) as [tmp|]; simpl; [|discriminate].
    destruct (files m !! tmp); simpl; [discriminate|].
    destruct (w_body w); simpl; [discriminate|].
    destruct (w_store w); simpl; [discriminate|].
    intros E. inversion E; subst; clear E. simpl.
    split; [now right|]. split; [reflexivity|].
    eexists. rewrite <- app_assoc. reflexivity.
  - unfold ret. intros E. inversion E; subst.
    split; [now left|]. split; [reflexivity|]. exists []. now rewrite app_nil_r.
Qed.

(** X17.  In every run and however it ends, the file operations of the
    script itself reach only the destination and the two temporary names:
    a regular file at any other path that the SQLite library leaves alone
    is, after [main], what it was before. *)
Theorem main_touches_three_paths `{Builtins} (a : args) (w : world) (m : machine)
    (p : string) :
  p <> arg_out a ->
  w_out_tmp w <> Some p ->
  w_db_tmp w <> Some p ->
  (forall fs, w_sqlite_fs w fs !! p = fs !! p) ->
  files (snd (main a w m)) !! p = files m !! p.
Proof.
  intros Hout Hotmp Hdtmp Hsql. unfold main.
  destruct (negb (truthy (arg_db a)) && negb (truthy (arg_db_url a))); [reflexivity|].
  assert (Hf : files (snd (acquire a w m)) !! p = files m !! p).
  { unfold acquire. destruct (truthy (arg_db_url a)); [|reflexivity].
    unfold bind.
    pose proof (download_to_tmp_frame w
                  match arg_db_url a with Some u => u | None => EmptyString end
                  m p Hdtmp) as Hd.
    now destruct (download_to_tmp w _ m) as [[t|rc|] m1]. }
  pose proof (acquire_returns a w m) as Ht.
  destruct (acquire a w m) as [[[q t]|rc|] m1]; simpl in *.
  - pose proof (build_and_write_frame a w q m1 p Hout Hotmp Hsql) as Hb.
    destruct (build_and_write a w q m1) as [r m2]; simpl in *.
    assert (Hne : t <> Some p).
    { destruct (Ht m1 q t eq_refl) as [[[_ ->]|[_ ->]] _]; [discriminate | exact Hdtmp]. }
    pose proof (cleanup_frame w t m2 p Hne) as Hc.
    destruct (cleanup w t m2) as [r3 m3]; simpl in *. now rewrite Hc, Hb.
  - exact Hf.
  - exact Hf.
Qed.

Lemma main_touches_three_paths_witness :
  files (snd (main (H := sample_builtins) both_args
                (sample_world Opened (inr "SQLite format 3"%string) true)
                sample_machine))
  !! "/srv/credits.db"%string
  = files sample_machine !! "/srv/credits.db"%string.
Proof.
  apply (main_touches_three_paths (H := sample_builtins)).
  - discriminate.
  - simpl. discriminate.
  - simpl. discriminate.
  - intros fs. reflexivity.
Defined.

(** ** Runs of [main] that end well *)

Lemma atomic_write_json_returns `{Builtins} (w : world) (obj : snapshot)
    (out_path : string) (m m1 : machine) :
  atomic_write_json w obj out_path m = (Return tt, m1) ->
  (exists text,
     json_dumps obj = inr text
     /\ files m1 !! out_path = Some {| contents := text; mode := 420 |})
  /\ (forall t, w_out_tmp w = Some t -> t <> out_path -> files m1 !! t = None)
  /\ stdout m1 = stdout m
  /\ stderr m1 = stderr m.
Proof.
  unfold atomic_write_json, mkstemp, store, bind, set_files, get_files, ret, raise.
  destruct (String.eqb (dirname out_path) EmptyString || negb (w_makedirs_ok w)); simpl;
    [discriminate|].
  destruct (w_out_tmp w) as [tmp|]; simpl; [|discriminate].
  destruct (files m !! tmp) eqn:Hfresh; simpl; [discriminate|].
  destruct (json_dumps obj) as [written|text]; simpl; [discriminate|].
  destruct (w_write w); simpl; [discriminate|].
  destruct (w_fsync_ok w); simpl; [|discriminate].
  destruct (w_replace_ok w); simpl; [|discriminate].
  rewrite !lookup_insert_eq. simpl.
  destruct (w_chmod_ok w); simpl; [|discriminate].
  rewrite !lookup_insert_eq. simpl.
  intros E. inversion E; subst; clear E. simpl.
  split; [exists text; split; [reflexivity | apply lookup_insert_eq]|].
  split; [|split; reflexivity].
  intros t Et Hne. inversion Et; subst.
  rewrite !lookup_insert_ne by congruence. apply lookup_delete_eq.
Qed.

Lemma cleanup_log (w : world) (tmp_db : option string) (m : machine) :
  stdout (snd (cleanup w tmp_db m)) = stdout m
  /\ stderr (snd (cleanup w tmp_db m)) = stderr m.
Proof.
  unfold cleanup, bind, get_files, set_files, ret.
  destruct (truthy tmp_db); [|auto].
  destruct tmp_db as [tmp|]; [|auto]. simpl.
  destruct (files m !! tmp); simpl; [|auto].
  destruct (w_remove_ok w); simpl; auto.
Qed.

Lemma data_length `{Builtins} (o : hash_order) (db : database) (now : Z) :
  List.length (data (build_snapshot o db now)) = List.length (collect_user_ids db).
Proof.
  rewrite build_snapshot_data, length_map.
  apply Permutation_length. rewrite sorted_perm. apply set_iter_perm.
Qed.

(** X18.  Exit status 0 is a guarantee: when [main] returns (and the
    download did not happen to be stored under the destination path
    itself), the destination holds the complete document of the snapshot of
    the source that was opened, with mode 0644, and the temporary file of
    the write is gone. *)
Theorem exit_zero_means_published `{Builtins} (a : args) (w : world) (m : machine) :
  fst (main a w m) = Return tt ->
  (truthy (arg_db_url a) = true -> w_db_tmp w <> Some (arg_out a)) ->
  published w (arg_out a) (files (snd (main a w m)))
  /\ forall t, w_out_tmp w = Some t -> t <> arg_out a ->
               files (snd (main a w m)) !! t = None.
Proof.
  unfold main.
  destruct (negb (truthy (arg_db a)) && negb (truthy (arg_db_url a)));
    [discriminate|].
  pose proof (acquire_returns a w m) as Hacq.
  destruct (acquire a w m) as [[[q t]|rc|] m1]; [|run_ended..].
  destruct (Hacq m1 q t eq_refl) as [Ht _]. clear Hacq.
  unfold build_and_write, bind.
  pose proof (open_sqlite_ro_returns w q m1) as Ho.
  destruct (open_sqlite_ro w q m1) as [[conn|rc|] m1']; [|run_ended..].
  destruct (Ho m1' conn eq_refl) as [Hconn _]. clear Ho.
  pose proof (atomic_write_json_returns w
                (build_snapshot (w_order w) conn (w_now w)) (arg_out a) m1') as Hw.
  destruct (atomic_write_json w _ (arg_out a) m1') as [[[]|rc|] m2]; [|run_ended..].
  destruct (Hw m2 eq_refl) as ((text & Hj & Hout) & Htmp & _). clear Hw.
  unfold info. simpl.
  set (m2' := {| files := files m2; seen := seen m2; stdout := _; stderr := stderr m2 |}).
  intros _ Hdb.
  assert (Hne : t <> Some (arg_out a)).
  { destruct Ht as [[_ ->]|[Hu ->]]; [discriminate | now apply Hdb]. }
  pose proof (cleanup_frame w t m2' (arg_out a) Hne) as Hc.
  pose proof (fun p => cleanup_keeps_absent w t m2' p) as Hk.
  destruct (cleanup w t m2') as [r3 m3]; simpl in *.
  split.
  - exists conn, text. split; [exact Hconn|]. split; [exact Hj|]. now rewrite Hc.
  - intros t' Et Hn. apply Hk. now apply Htmp.
Qed.

Lemma exit_zero_means_published_witness :
  published (H := sample_builtins)
    (sample_world Opened (inr "SQLite format 3"%string) true)
    (arg_out url_args)
    (files (snd (main (H := sample_builtins) url_args
                   (sample_world Opened (inr "SQLite format 3"%string) true)
                   sample_machine)))
  /\ forall t,
       w_out_tmp (sample_world Opened (inr "SQLite format 3"%string) true) = Some t ->
       t <> arg_out url_args ->
       files (snd (main (H := sample_builtins) url_args
                     (sample_world Opened (inr "SQLite format 3"%string) true)
                     sample_machine)) !! t = None.
Proof.
  apply (exit_zero_means_published (H := sample_builtins)).
  - vm_compute. reflexivity.
  - intros _. simpl. discriminate.
Defined.

(** X19.  A run that returns printed nothing on the error stream, and the
    last line on the output stream is the summary: the destination path,
    the number of distinct user identifiers of the source and the number of
    rows of the two role tables together. *)
Theorem success_is_logged `{Builtins} (a : args) (w : world) (m : machine) :
  fst (main a w m) = Return tt ->
  exists conn pre,
    connected_db w = Some conn
    /\ stdout (snd (main a w m)) = stdout m ++ pre ++ [summary_line (arg_out a) conn]
    /\ stderr (snd (main a w m)) = stderr m.
Proof.
  unfold main.
  destruct (negb (truthy (arg_db a)) && negb (truthy (arg_db_url a)));
    [discriminate|].
  pose proof (acquire_returns a w m) as Hacq.
  destruct (acquire a w m) as [[[q t]|rc|] m1]; [|run_ended..].
  destruct (Hacq m1 q t eq_refl) as (_ & Herr & pre & Hout). clear Hacq.
  unfold build_and_write, bind.
  pose proof (open_sqlite_ro_returns w q m1) as Ho.
  destruct (open_sqlite_ro w q m1) as [[conn|rc|] m1']; [|run_ended..].
  destruct (Ho m1' conn eq_refl) as (Hconn & Hoo & Hoe). clear Ho.
  assert (Hn : List.length (data (build_snapshot (w_order w) conn (w_now w)))
               = List.length (collect_user_ids conn)) by apply data_length.
  assert (Hr : forall t, read_roles conn t = map role_of_row (rows (select_roles conn t)))
    by apply read_roles_map.
  assert (Hr1 : List.length
                  (non_stacking_roles (roles (build_snapshot (w_order w) conn (w_now w))))
                = List.length (rows (select_roles conn tbl_non_stacking_roles)))
    by (unfold build_snapshot; cbn [roles non_stacking_roles]; now rewrite Hr, length_map).
  assert (Hr2 : List.length
                  (role_credits (roles (build_snapshot (w_order w) conn (w_now w))))
                = List.length (rows (select_roles conn tbl_role_credits)))
    by (unfold build_snapshot; cbn [roles role_credits]; now rewrite Hr, length_map).
  clear Hr.
  remember (build_snapshot (w_order w) conn (w_now w)) as snap eqn:Es. clear Es.
  pose proof (atomic_write_json_returns w snap (arg_out a) m1') as Hw.
  destruct (atomic_write_json w snap (arg_out a) m1') as [[[]|rc|] m2]; [|run_ended..].
  destruct (Hw m2 eq_refl) as (_ & _ & Hwo & Hwe). clear Hw.
  unfold info. simpl.
  set (m2' := {| files := files m2; seen := seen m2; stdout := _; stderr := stderr m2 |}).
  intros _.
  pose proof (cleanup_log w t m2') as [Hco Hce].
  destruct (cleanup w t m2') as [r3 m3]; simpl in *.
  exists conn, pre. split; [exact Hconn|]. split.
  - rewrite Hco, Hwo, Hoo, Hout, <- app_assoc. unfold summary_line.
    now rewrite Hn, Hr1, Hr2.
  - now rewrite Hce, Hwe, Hoe.
Qed.

Lemma success_is_logged_witness :
  exists conn pre,
    connected_db (sample_world Opened (inr "SQLite format 3"%string) true) = Some conn
    /\ stdout (snd (main (H := sample_builtins) url_args
                      (sample_world Opened (inr "SQLite format 3"%string) true)
                      sample_machine))
       = stdout sample_machine ++ pre ++ [summary_line (arg_out url_args) conn]
    /\ stderr (snd (main (H := sample_builtins) url_args
                      (sample_world Opened (inr "SQLite format 3"%string) true)
                      sample_machine))
       = stderr sample_machine.
Proof.
  apply (success_is_logged (H := sample_builtins)).
  vm_compute. reflexivity.
Defined.
